(** * Study Buddy (app.py): a shallow embedding and its verified properties

    The program is a Streamlit script: [main] is executed from top to bottom
    once per user interaction, reading the widgets and reading and writing
    [st.session_state].  Its three helpers are [extract_text_from_pdf],
    [load_model] and [ask_question].

    Conventions of the embedding.
    - A Python [str] is a Rocq [string] holding the UTF-8 bytes of the text.
    - An exception is represented by its [str(e)] text, the only thing the
      program ever looks at.
    - Everything the script does to the outside (widgets that display text,
      [time.sleep], the PDF parser, the remote model) is recorded, in
      chronological order, in the [log] of the [world]; the outside's answers
      (the parser [PdfReader], the remote service [generate_content]) are
      parameters of the development.
    - Static page decoration ([st.set_page_config], [st.title], [st.caption],
      [st.divider], [st.header], [st.subheader], the introductory
      [st.markdown]) and the spinners carry no data and are left out. *)

From Stdlib Require Import Ascii DecimalString.
From stdpp Require Import base strings list gmap.

(** ** Python values used by the script *)

Module Py.

(** Result of a call that may raise: [raises e] carries [str(e)]. *)
Inductive except (A : Type) : Type :=
| value (a : A)
| raises (e : string).
Arguments value {A} a.
Arguments raises {A} e.

Definition nl : string := String (ascii_of_nat 10) "".
Definition dq : string := String (ascii_of_nat 34) "".

(** [bool(s)] for a string: the empty string is falsy. *)
Definition truthy (s : string) : bool :=
  match s with
  | EmptyString => false
  | String _ _ => true
  end.

(** [sub in s]. *)
Fixpoint contains (sub s : string) : bool :=
  String.prefix sub s ||
  match s with
  | EmptyString => false
  | String _ s' => contains sub s'
  end.

(** [s.lower()].  On the UTF-8 bytes only the ASCII capitals change.  The
    script uses [lower] for a single purpose, the test
    ["quota" in error_message.lower()], and for that test this is exact:
    the only characters outside ASCII whose lower case contains an ASCII
    letter are U+212A (to k) and U+0130 (to i followed by U+0307), and
    neither letter occurs in the needle. *)
Definition lower_char (c : ascii) : ascii :=
  let n := nat_of_ascii c in
  if (65 <=? n) && (n <=? 90) then ascii_of_nat (n + 32) else c.

Fixpoint lower (s : string) : string :=
  match s with
  | EmptyString => EmptyString
  | String c s' => String (lower_char c) (lower s')
  end.

(** [str(n)] for a natural number. *)
Definition str (n : nat) : string := NilZero.string_of_uint (Nat.to_uint n).

(** [len(s)]: the number of code points, that is of bytes that are not
    UTF-8 continuation bytes. *)
Definition is_continuation (c : ascii) : bool :=
  let n := nat_of_ascii c in (128 <=? n) && (n <? 192).

Definition len (s : string) : nat :=
  length (filter (λ c, is_continuation c = false) (String.list_ascii_of_string s)).

(** [f"{n:,}"]: decimal digits in groups of three, counted from the right. *)
Fixpoint group_rev (digits : list ascii) (k : nat) : list ascii :=
  match digits with
  | [] => []
  | d :: rest =>
      match k with
      | 3 => ","%char :: d :: group_rev rest 1
      | _ => d :: group_rev rest (S k)
      end
  end.

Definition format_thousands (n : nat) : string :=
  String.string_of_list_ascii
    (rev (group_rev (rev (String.list_ascii_of_string (str n))) 0)).

(** [enumerate(l)]. *)
Fixpoint enumerate_from {A : Type} (start : nat) (l : list A) : list (nat * A) :=
  match l with
  | [] => []
  | x :: rest => (start, x) :: enumerate_from (S start) rest
  end.

Definition enumerate {A : Type} (l : list A) : list (nat * A) :=
  enumerate_from 0 l.

(** [range(a, b)]. *)
Definition range (a b : nat) : list nat := seq a (b - a).

End Py.

Import Py.

(** ** Configuration (SECTION 1 of app.py) *)

Definition MODEL_NAME : string := "gemini-2.5-flash".

Definition MAX_RETRIES : nat := 3.
Definition RETRY_DELAY_SECONDS : nat := 15.

Definition SYSTEM_PROMPT : string :=
  "
You are a focused and helpful Study Buddy assistant.
Your job is to answer questions ONLY based on the document content provided to you.
Rules you must always follow:
  - If the answer is in the document, provide a clear and concise answer.
  - If the answer is NOT in the document, say: " +:+ dq +:+
  "I couldn't find that in the document." +:+ dq +:+ "
  - Never make up information or use outside knowledge.
  - Keep answers student-friendly: clear, simple, and to the point.
".

(** ** Data model *)

(** One exchange, the tuple [(question, answer)] of [chat_history]. *)
Definition turn : Type := string * string.

(** A message dictionary [{"role": r, "parts": [..]}]. *)
Record message : Type := Message {
  role : string;
  parts : list string
}.

(** A [genai.GenerativeModel] object.  [handle_id] is the identity of the
    Python object: two constructions give two objects, even with equal
    contents. *)
Record model_handle : Type := GenerativeModel {
  handle_id : nat;
  model_name : string;
  system_instruction : string
}.

(** [st.session_state]: each of the three keys the script uses is either
    absent ([None]) or bound. *)
Record session_state : Type := SessionState {
  document_text : option string;
  last_file : option string;
  chat_history : option (list turn)
}.

(** The file object given by [st.file_uploader]. *)
Record uploaded_file : Type := UploadedFile {
  name : string;
  content : list Byte.byte
}.

(** A page of a parsed PDF, as the script sees it: what
    [page.extract_text()] does, namely return a string or [None], or raise. *)
Definition page : Type := except (option string).

(** What the script does to the outside, in the order it does it. *)
Inductive event : Type :=
| StError (text : string)                    (* st.error *)
| StWarning (text : string)                  (* st.warning *)
| StSuccess (text : string)                  (* st.success *)
| StInfo (text : string)                     (* st.info *)
| ChatMessage (who : string) (text : string) (* with st.chat_message(who): st.markdown(text) *)
| Sleep (seconds : nat)                      (* time.sleep *)
| ReadPdf (file : uploaded_file)             (* PdfReader(uploaded_file) *)
| Configure (api_key : string)               (* genai.configure(api_key=...) *)
| GenerateContent (model : model_handle) (messages : list message)
                                             (* model.generate_content(messages) *)
| Rerun.                                     (* st.rerun() *)

(** The state a run of the script works on.  [resources] is the table of
    [st.cache_resource] for [load_model], keyed by the argument [api_key];
    [objects] counts the [GenerativeModel] objects constructed so far and
    [calls] the [generate_content] requests issued so far. *)
Record world : Type := World {
  session : session_state;
  resources : gmap string model_handle;
  objects : nat;
  calls : nat;
  log : list event
}.

Definition initial_session : session_state :=
  {| document_text := None; last_file := None; chat_history := None |}.

Definition initial_world : world :=
  {| session := initial_session; resources := ∅; objects := 0; calls := 0;
     log := [] |}.

(** ** The monad of script actions *)

Definition action (A : Type) : Type := world → A * world.

Definition ret {A : Type} (a : A) : action A := λ w, (a, w).

Definition bind {A B : Type} (m : action A) (k : A → action B) : action B :=
  λ w, let (a, w') := m w in k a w'.

Notation "'let*' x := m 'in' k" := (bind m (λ x, k))
  (at level 10, x name, m at level 100, k at level 200, only parsing).
Notation "m ;; k" := (bind m (λ _, k))
  (at level 100, k at level 200, right associativity, only parsing).

Definition emit (e : event) : action unit :=
  λ w, (tt, {| session := session w; resources := resources w;
               objects := objects w; calls := calls w;
               log := log w ++ [e] |}).

Definition get_session : action session_state := λ w, (session w, w).

Definition put_session (s : session_state) : action unit :=
  λ w, (tt, {| session := s; resources := resources w; objects := objects w;
               calls := calls w; log := log w |}).

Definition set_document_text (v : string) (s : session_state) : session_state :=
  {| document_text := Some v; last_file := last_file s;
     chat_history := chat_history s |}.

Definition set_last_file (v : string) (s : session_state) : session_state :=
  {| document_text := document_text s; last_file := Some v;
     chat_history := chat_history s |}.

Definition set_chat_history (v : list turn) (s : session_state) : session_state :=
  {| document_text := document_text s; last_file := last_file s;
     chat_history := Some v |}.

Definition modify_session (f : session_state → session_state) : action unit :=
  let* s := get_session in put_session (f s).

Definition run {A : Type} (m : action A) (w : world) : A * world := m w.

Section App.

(** The PDF parser of pypdf: [PdfReader(uploaded_file)] followed by
    [reader.pages] either raises or gives the pages. *)
Variable PdfReader : uploaded_file → except (list page).

(** The remote model.  [generate_content n model messages] is the outcome of
    the body of the [try] of [ask_question], that is of
    [model.generate_content(messages)] followed by [response.text], when
    it is the request number [n] (counted from 0) since the process
    started: the generated text, or an exception. *)
Variable generate_content : nat → model_handle → list message → except string.

(** *** SECTION 2: PDF processing *)

Definition page_marker (page_number : nat) : string :=
  nl +:+ "--- Page " +:+ str (page_number + 1) +:+ " ---" +:+ nl.

(** The [for] loop over [enumerate(reader.pages)], with the value of
    [extracted_text] on entry. *)
Fixpoint extract_pages (pages : list (nat * page)) (extracted_text : string)
  : except string :=
  match pages with
  | [] => value extracted_text
  | (page_number, pg) :: rest =>
      match pg with
      | raises e => raises e
      | value None => extract_pages rest extracted_text
      | value (Some page_text) =>
          if truthy page_text
          then extract_pages rest
                 ((extracted_text +:+ page_marker page_number) +:+ page_text)
          else extract_pages rest extracted_text
      end
  end.

(** The body of the [try]. *)
Definition read_pages (file : uploaded_file) : except string :=
  match PdfReader file with
  | raises e => raises e
  | value pages => extract_pages (enumerate pages) ""
  end.

Definition extract_text_from_pdf (file : uploaded_file) : action string :=
  emit (ReadPdf file);;
  match read_pages file with
  | value extracted_text => ret extracted_text
  | raises e => emit (StError ("❌ Failed to read PDF: " +:+ e));; ret ""
  end.

(** *** SECTION 3: Gemini setup *)

(** The undecorated function. *)
Definition load_model_body (api_key : string) : action model_handle :=
  emit (Configure api_key);;
  λ w, ({| handle_id := objects w; model_name := MODEL_NAME;
           system_instruction := SYSTEM_PROMPT |},
        {| session := session w; resources := resources w;
           objects := S (objects w); calls := calls w; log := log w |}).

(** [@st.cache_resource], Streamlit's decorator, for a function of one
    string argument: the first call with a given argument runs the function
    and keeps the object it returns; a later call with an equal argument
    returns that very object and does not run the function. *)
Definition cache_resource (f : string → action model_handle) (key : string)
  : action model_handle :=
  λ w, match resources w !! key with
       | Some cached => (cached, w)
       | None =>
           let (made, w') := f key w in
           (made, {| session := session w';
                     resources := <[key := made]> (resources w');
                     objects := objects w'; calls := calls w';
                     log := log w' |})
       end.

Definition load_model : string → action model_handle :=
  cache_resource load_model_body.

(** *** SECTION 4: the core RAG function *)

Definition build_prompt (document_text question : string) : string :=
  "
Here is the document you should use to answer questions:

=== DOCUMENT START ===
" +:+ document_text +:+ "
=== DOCUMENT END ===

Based ONLY on the document above, please answer this question:
" +:+ question +:+ "
".

(** The loop over [chat_history], with the value of [messages] on entry. *)
Fixpoint replay_history (chat_history : list turn) (messages : list message)
  : list message :=
  match chat_history with
  | [] => messages
  | (past_question, past_answer) :: rest =>
      replay_history rest
        ((messages ++ [{| role := "user"; parts := [past_question] |}])
           ++ [{| role := "model"; parts := [past_answer] |}])
  end.

Definition build_messages (prompt : string) (chat_history : list turn)
  : list message :=
  replay_history chat_history [] ++ [{| role := "user"; parts := [prompt] |}].

Definition is_rate_limit (error_message : string) : bool :=
  contains "429" error_message || contains "quota" (lower error_message).

Definition rate_limit_warning (attempt : nat) : string :=
  "⏳ Rate limit hit. Waiting " +:+ str RETRY_DELAY_SECONDS +:+ "s " +:+
  "before retry " +:+ str attempt +:+ "/" +:+ str (MAX_RETRIES - 1) +:+ "...".

Definition rate_limit_exceeded : string :=
  "❌ Rate limit exceeded after multiple retries. " +:+
  "Please wait a minute and try again. " +:+
  "Tip: Each student should use their own API key!".

Definition unexpected_error (error_message : string) : string :=
  "❌ Unexpected error: " +:+ error_message.

(** One pass through the [try]: the request is logged and counted, and its
    outcome is the one the service gives to this request. *)
Definition try_generate (model : model_handle) (messages : list message)
  : action (except string) :=
  λ w, (generate_content (calls w) model messages,
        {| session := session w; resources := resources w;
           objects := objects w; calls := S (calls w);
           log := log w ++ [GenerateContent model messages] |}).

(** The [for attempt in ...] loop over the attempts still to be made.
    [None] is Python's [None], what a function returns when control falls
    off its end. *)
Fixpoint retry_loop (model : model_handle) (messages : list message)
    (attempts : list nat) : action (option string) :=
  match attempts with
  | [] => ret None
  | attempt :: rest =>
      let* outcome := try_generate model messages in
      match outcome with
      | value text => ret (Some text)
      | raises error_message =>
          if is_rate_limit error_message then
            if attempt <? MAX_RETRIES then
              emit (StWarning (rate_limit_warning attempt));;
              emit (Sleep RETRY_DELAY_SECONDS);;
              retry_loop model messages rest
            else ret (Some rate_limit_exceeded)
          else ret (Some (unexpected_error error_message))
      end
  end.

Definition ask_question (model : model_handle) (question document_text : string)
    (chat_history : list turn) : action (option string) :=
  let prompt := build_prompt document_text question in
  let messages := build_messages prompt chat_history in
  retry_loop model messages (range 1 (MAX_RETRIES + 1)).

(** *** SECTION 5: the Streamlit script *)

(** What the widgets return in one run of the script. *)
Record widgets : Type := Widgets {
  api_key : string;                (* st.text_input: empty when nothing typed *)
  uploaded : option uploaded_file; (* st.file_uploader *)
  clear_clicked : bool;            (* st.button("Clear Chat History") *)
  user_question : option string    (* st.chat_input *)
}.

Definition pdf_loaded (document_text : string) : string :=
  "✅ PDF loaded! (" +:+ format_thousands (len document_text) +:+
  " characters extracted)".

Definition how_rag_works : string :=
  "💡 **How RAG works:**" +:+ nl +:+ nl +:+
  "Your PDF text is injected directly into every prompt. " +:+
  "Gemini reads it fresh each time and answers only from that content. " +:+
  "No vector database needed — this is the simplest form of RAG!".

(** The condition of lines 231-232:
    ["document_text" not in st.session_state or
     st.session_state.get("last_file") != uploaded_file.name]. *)
Definition is_new_file (s : session_state) (file : uploaded_file) : bool :=
  bool_decide (document_text s = None)
  || bool_decide (last_file s ≠ Some (name file)).

(** The [if uploaded_file:] block of the sidebar. *)
Definition process_upload (upload : option uploaded_file) : action unit :=
  match upload with
  | None => ret tt
  | Some file =>
      let* s := get_session in
      if is_new_file s file then
        let* text := extract_text_from_pdf file in
        if truthy text then
          modify_session (set_document_text text);;
          modify_session (set_last_file (name file));;
          modify_session (set_chat_history []);;
          emit (StSuccess (pdf_loaded text))
        else
          emit (StError "Could not extract text. Is this a scanned PDF?")
      else ret tt
  end.

(** The loop that displays the past messages. *)
Fixpoint display_history (chat_history : list turn) : action unit :=
  match chat_history with
  | [] => ret tt
  | (question, answer) :: rest =>
      emit (ChatMessage "user" question);;
      emit (ChatMessage "assistant" answer);;
      display_history rest
  end.

(** [st.session_state.chat_history.append(t)]. *)
Definition append_turn (t : turn) (s : session_state) : session_state :=
  set_chat_history (default [] (chat_history s) ++ [t]) s.

(** The [if user_question:] block.  It runs below the two guards, with
    [document_text] the value bound in the session state;
    [chat_history] is bound since line 264.  When [ask_question] returns
    Python's [None] nothing is modelled: [ask_question_returns] shows that
    this never happens. *)
Definition answer_question (key question document_text : string) : action unit :=
  emit (ChatMessage "user" question);;
  let* model := load_model key in
  let* s := get_session in
  let* answer :=
    ask_question model question document_text (default [] (chat_history s)) in
  match answer with
  | None => ret tt
  | Some answer =>
      emit (ChatMessage "assistant" answer);;
      modify_session (append_turn (question, answer))
  end.

(** The script from the clear button on: the end of the sidebar and the
    main chat area.  [st.rerun()] stops the run. *)
Definition from_clear_button (ui : widgets) : action unit :=
  if clear_clicked ui then
    modify_session (set_chat_history []);;
    emit Rerun
  else
    emit (StInfo how_rag_works);;
    let* s := get_session in
    (if chat_history s is None then modify_session (set_chat_history [])
     else ret tt);;
    let* s := get_session in
    match document_text s with
    | None =>
        emit (StInfo
          "👈 Start by entering your API key and uploading a PDF in the sidebar.")
    | Some document_text =>
        if negb (truthy (api_key ui)) then
          emit (StWarning "🔑 Please enter your Gemini API Key in the sidebar.")
        else
          display_history (default [] (chat_history s));;
          match user_question ui with
          | None => ret tt
          | Some question =>
              if truthy question
              then answer_question (api_key ui) question document_text
              else ret tt
          end
    end.

(** One run of the script. *)
Definition main (ui : widgets) : action unit :=
  process_upload (uploaded ui);;
  from_clear_button ui.

(** A session: the worlds reached from the start of the process by running
    the script again and again, with whatever the widgets return. *)
Inductive reachable : world → Prop :=
| reachable_initial : reachable initial_world
| reachable_run (ui : widgets) (w : world) :
    reachable w → reachable (main ui w).2.

End App.

(** * Specifications and auxiliary definitions *)

(** ** Extraction of the text of a PDF *)

Module Extraction_spec.

(** The contract in the words of the specification: the pages are numbered
    from 1 in document order, the pages that yield no text ([None] or the
    empty string) are dropped, and what remains is concatenated, every
    page's text after the marker that carries its number. *)
Definition numbered (pages : list (option string)) : list (nat * option string) :=
  zip (seq 1 (length pages)) pages.

Definition with_text (np : nat * option string) : option (nat * string) :=
  match np with
  | (n, Some text) => if truthy text then Some (n, text) else None
  | (_, None) => None
  end.

Definition marker (n : nat) : string :=
  nl +:+ "--- Page " +:+ str n +:+ " ---" +:+ nl.

Definition marked (nt : nat * string) : string := marker nt.1 +:+ nt.2.

Definition join (l : list string) : string := foldr String.append "" l.

Definition document (pages : list (option string)) : string :=
  join (marked <$> omap with_text (numbered pages)).

End Extraction_spec.

(** ** The conversation sent to the model *)

Module Conversation_spec.

(** The conversation in the words of the specification: each past turn
    gives a "user" message with the question followed by a "model"
    message with the answer, in chronological order. *)
Definition user (text : string) : message := {| role := "user"; parts := [text] |}.
Definition model (text : string) : message := {| role := "model"; parts := [text] |}.

Definition exchange (t : turn) : list message := [user t.1; model t.2].

Definition history (turns : list turn) : list message :=
  turns ≫= exchange.

End Conversation_spec.

Import Conversation_spec.

(** The requests recorded in a log. *)
Definition request (e : event) : option (model_handle * list message) :=
  match e with
  | GenerateContent m messages => Some (m, messages)
  | _ => None
  end.

Definition requests (l : list event) : list (model_handle * list message) :=
  omap request l.

(** The world after a request has been sent, and after the warning and
    the pause that follow a rate-limited attempt. *)
Definition requested (m : model_handle) (messages : list message) (w : world)
  : world :=
  {| session := session w; resources := resources w; objects := objects w;
     calls := S (calls w); log := log w ++ [GenerateContent m messages] |}.

Definition paused (attempt : nat) (w : world) : world :=
  {| session := session w; resources := resources w; objects := objects w;
     calls := calls w;
     log := (log w ++ [StWarning (rate_limit_warning attempt)])
              ++ [Sleep RETRY_DELAY_SECONDS] |}.

(** ** The augmented prompt *)

Module Prompt_spec.

Definition preamble : string :=
  "Here is the document you should use to answer questions:".
Definition document_start : string := "=== DOCUMENT START ===".
Definition document_end : string := "=== DOCUMENT END ===".
Definition instruction : string :=
  "Based ONLY on the document above, please answer this question:".

(** [in_order parts s]: the parts occur in [s] one after the other, in the
    order of the list and without overlapping. *)
Fixpoint in_order (parts : list string) (s : string) : Prop :=
  match parts with
  | [] => True
  | p :: rest => ∃ before after, s = before +:+ p +:+ after ∧ in_order rest after
  end.

(** [s] without its first [n] characters. *)
Fixpoint drop_string (n : nat) (s : string) : string :=
  match n, s with
  | 0, _ => s
  | S n', String _ s' => drop_string n' s'
  | S _, EmptyString => EmptyString
  end.

(** What follows each occurrence of [p] in [s], leftmost occurrence first. *)
Fixpoint suffixes_after (p s : string) : list string :=
  (if String.prefix p s then [drop_string (String.length p) s] else [])
  ++ match s with
     | EmptyString => []
     | String _ s' => suffixes_after p s'
     end.

(** A search for the parts in order, over all occurrences. *)
Fixpoint in_order_b (parts : list string) (s : string) : bool :=
  match parts with
  | [] => true
  | p :: rest => existsb (in_order_b rest) (suffixes_after p s)
  end.

End Prompt_spec.

(** ** What an action leaves alone *)

(** [keeps R m]: from every world, running [m] leads to a world related to
    it by [R]. *)
Definition keeps {A : Type} (R : relation world) (m : action A) : Prop :=
  ∀ w, R w (m w).2.

(** The worlds that agree on one component. *)
Definition same {X : Type} (f : world → X) : relation world :=
  λ w w', f w' = f w.

(** A property of the world, once true, stays true. *)
Definition preserved (P : world → Prop) : relation world :=
  λ w w', P w → P w'.

(** A document is stored: text, file name and history are all bound. *)
Definition loaded (s : session_state) : Prop :=
  is_Some (document_text s) ∧ is_Some (chat_history s).

(** The three keys of the session state go together: the file name is bound
    only if the text and the history are. *)
Definition consistent (w : world) : Prop :=
  is_Some (last_file (session w)) → loaded (session w).

(** The document that is stored: its text and the name of its file. *)
Definition stored_document (w : world) : option string * option string :=
  (document_text (session w), last_file (session w)).

(** Cached handles stay as they are. *)
Definition resources_kept : relation world :=
  λ w w', ∀ key h, resources w !! key = Some h → resources w' !! key = Some h.

(** ** Sample inputs *)

Module Sample.

Definition notes : uploaded_file :=
  {| name := "notes.pdf"; content := [] |}.

Definition slides : uploaded_file :=
  {| name := "slides.pdf"; content := [Byte.x25; Byte.x50] |}.

(** The bytes of the slides under the name of the notes. *)
Definition renamed : uploaded_file :=
  {| name := "notes.pdf"; content := [Byte.x25; Byte.x50] |}.

Definition broken : uploaded_file :=
  {| name := "broken.pdf"; content := [Byte.x00] |}.

(** A parser that goes by the bytes: four pages for the empty content (the
    second is an image, the third is blank), one page for a content that
    starts with a percent sign, a failure for everything else. *)
Definition reader (file : uploaded_file) : except (list page) :=
  match content file with
  | [] => value [value (Some "alpha"); value None; value (Some "");
                 value (Some "beta")]
  | Byte.x25 :: _ => value [value (Some "gamma")]
  | _ => raises "EOF marker not found"
  end.

(** Services: one that is always rate limited, one that is always down. *)
Definition limited (n : nat) (m : model_handle) (messages : list message)
  : except string :=
  raises "429 Resource has been exhausted (e.g. check quota).".

Definition down (n : nat) (m : model_handle) (messages : list message)
  : except string := raises "503 Service Unavailable".

Definition handle : model_handle :=
  {| handle_id := 0; model_name := MODEL_NAME;
     system_instruction := SYSTEM_PROMPT |}.

(** The notes are uploaded in a first run, with no key typed yet. *)
Definition upload_notes : widgets :=
  {| api_key := ""; uploaded := Some notes; clear_clicked := false;
     user_question := None |}.

(** The world after that first run, against the service that is down. *)
Definition notes_loaded : world :=
  (main reader down upload_notes initial_world).2.

(** A question typed while the notes are in the uploader. *)
Definition ask_why : widgets :=
  {| api_key := "key"; uploaded := Some notes; clear_clicked := false;
     user_question := Some "Why?" |}.

(** The world after the run that answers that question. *)
Definition one_turn : world :=
  (main reader down ask_why notes_loaded).2.

(** The slides are put in the uploader. *)
Definition upload_slides : widgets :=
  {| api_key := "key"; uploaded := Some slides; clear_clicked := false;
     user_question := None |}.

End Sample.

(** ** The course of the retry loop *)

(** What a rate-limited attempt that is not the last one records: the
    request, the warning, the pause. *)
Definition rate_limited_attempt (m : model_handle) (messages : list message)
    (attempt : nat) : list event :=
  [GenerateContent m messages; StWarning (rate_limit_warning attempt);
   Sleep RETRY_DELAY_SECONDS].

(** The world after the attempts numbered [first], [first + 1], ...,
    [count] of them, have each been rate limited and followed by a pause. *)
Fixpoint retried (m : model_handle) (messages : list message)
    (first count : nat) (w : world) : world :=
  match count with
  | 0 => w
  | S count' =>
      retried m messages (S first) count' (paused first (requested m messages w))
  end.

(** The seconds of [time.sleep] recorded in a log. *)
Definition pause (e : event) : option nat :=
  match e with
  | Sleep seconds => Some seconds
  | _ => None
  end.

Definition slept (l : list event) : nat := sum_list (omap pause l).

Module Sample_services.

(** Rate limited twice, then answering. *)
Definition recovering (n : nat) (m : model_handle) (messages : list message)
  : except string :=
  if n <? 2 then raises "429 Too Many Requests" else value "It is on page 1.".

(** Out of quota once, then failing for another reason. *)
Definition worsening (n : nat) (m : model_handle) (messages : list message)
  : except string :=
  if n <? 1 then raises "Quota exceeded for this key"
  else raises "500 Internal error".

End Sample_services.

(** ** The fixed parts of the augmented prompt *)

(** What comes before the document text, and what comes between the
    document text and the question. *)
Definition prompt_head : string :=
  nl +:+ Prompt_spec.preamble +:+ nl +:+ nl +:+ Prompt_spec.document_start +:+ nl.

Definition prompt_middle : string :=
  nl +:+ Prompt_spec.document_end +:+ nl +:+ nl +:+ Prompt_spec.instruction +:+ nl.

(** ** Pages with and without text *)

(** [bool(page_text)] for what [extract_text()] returned. *)
Definition has_text (pg : option string) : bool :=
  match pg with
  | Some text => truthy text
  | None => false
  end.

Module Sample_files.

(** A scan: two pages, none with text. *)
Definition scan : uploaded_file :=
  {| name := "scan.pdf"; content := [Byte.x01] |}.

(** A file whose second page cannot be read. *)
Definition torn : uploaded_file :=
  {| name := "torn.pdf"; content := [Byte.x02] |}.

(** A file with a picture on its first page and text on its second. *)
Definition cover : uploaded_file :=
  {| name := "cover.pdf"; content := [Byte.x03] |}.

Definition reader (file : uploaded_file) : except (list page) :=
  match content file with
  | [Byte.x01] => value [value None; value (Some "")]
  | [Byte.x02] => value [value (Some "one"); raises "bad stream"; raises "later"]
  | [Byte.x03] => value [value None; value (Some "two")]
  | _ => raises "EOF marker not found"
  end.

End Sample_files.

(** ** What a run does with the model *)

(** The credentials given to [genai.configure] according to a log. *)
Definition configure_of (e : event) : option string :=
  match e with
  | Configure key => Some key
  | _ => None
  end.

Definition configured (l : list event) : list string := omap configure_of l.

(** The cache of handles, the number of handles built and the credentials
    configured so far. *)
Definition cache_view (w : world) : gmap string model_handle * nat * list string :=
  (resources w, objects w, configured (log w)).

(** In a session every credential is configured once, when its handle is
    built and cached; every cached handle has the fixed model name and system
    instruction; two credentials never share a handle object. *)
Definition cache_invariant (w : world) : Prop :=
  NoDup (configured (log w))
  ∧ (∀ key, key ∈ configured (log w) ↔ is_Some (resources w !! key))
  ∧ (∀ key h, resources w !! key = Some h →
       handle_id h < objects w
       ∧ model_name h = MODEL_NAME
       ∧ system_instruction h = SYSTEM_PROMPT)
  ∧ (∀ k1 k2 h1 h2,
       resources w !! k1 = Some h1 → resources w !! k2 = Some h2 →
       handle_id h1 = handle_id h2 → k1 = k2).

(** The text and the file name are bound together, and the history with
    them; the stored text is never empty; turns are only kept for a stored
    document. *)
Definition session_invariant (s : session_state) : Prop :=
  (is_Some (document_text s) ↔ is_Some (last_file s))
  ∧ (is_Some (document_text s) → is_Some (chat_history s))
  ∧ document_text s ≠ Some ""
  ∧ (∀ turns, chat_history s = Some turns → turns ≠ [] →
       is_Some (document_text s)).

(** [sends sent w w']: from [w] to [w'] the log has grown, and the requests
    in what was added are [sent]. *)
Definition sends (sent : list (model_handle * list message)) : relation world :=
  λ w w', ∃ new, log w' = log w ++ new ∧ requests new = sent.

Module Sample_runs.

(** The clear button is clicked while a question is submitted. *)
Definition clear_and_ask : widgets :=
  {| api_key := "key"; uploaded := Some Sample.notes; clear_clicked := true;
     user_question := Some "Why?" |}.

(** A question is submitted before any key is typed. *)
Definition ask_without_key : widgets :=
  {| api_key := ""; uploaded := Some Sample.notes; clear_clicked := false;
     user_question := Some "Why?" |}.

End Sample_runs.

(** * Properties *)

(** ** Strings *)

Lemma append_nil (b : string) : "" +:+ b = b.
Proof. reflexivity. Qed.

Lemma append_cons (x : ascii) (a b : string) :
  String x a +:+ b = String x (a +:+ b).
Proof. reflexivity. Qed.

Lemma append_assoc (a b c : string) : (a +:+ b) +:+ c = a +:+ (b +:+ c).
Proof.
  induction a as [|x a IH]; [done|].
  by rewrite !append_cons, IH.
Qed.

Lemma append_empty_r (a : string) : a +:+ "" = a.
Proof.
  induction a as [|x a IH]; [done|].
  by rewrite append_cons, IH.
Qed.

Lemma truthy_true (s : string) : truthy s = true ↔ s ≠ "".
Proof. destruct s; simpl; split; congruence. Qed.

(** ** Extraction of the text of a PDF *)

Section Extraction.

Variable PdfReader : uploaded_file → except (list page).

Import Extraction_spec.

Lemma extract_pages_spec (pages : list (option string)) (first : nat) (acc : string) :
  extract_pages (enumerate_from first (value <$> pages)) acc
  = value (acc +:+
           join (marked <$> omap with_text (zip (seq (S first) (length pages)) pages))).
Proof.
  revert first acc.
  induction pages as [|pg pages IH]; intros first acc; simpl.
  - by rewrite append_empty_r.
  - destruct pg as [text|]; simpl; [|apply IH].
    destruct (truthy text) eqn:Ht; simpl; [|apply IH].
    rewrite IH. f_equal. unfold marked, marker, page_marker. simpl.
    rewrite Nat.add_1_r. by rewrite !append_assoc.
Qed.

(** C5.  When the parser gives the pages of the PDF and every page's
    [extract_text()] returns (a string or [None]),
    [extract_text_from_pdf] returns the concatenation, in ascending
    document order, of the text of each page that has text, each preceded by
    the marker with its 1-based page number; pages without text leave no
    trace in the result, and nothing is displayed: the only thing recorded
    is the reading of the file. *)
Theorem extract_text_from_pdf_document (file : uploaded_file)
    (pages : list (option string)) (w : world) :
  PdfReader file = value (value <$> pages) →
  run (extract_text_from_pdf PdfReader file) w
  = (document pages,
     {| session := session w; resources := resources w; objects := objects w;
        calls := calls w; log := log w ++ [ReadPdf file] |}).
Proof.
  intros Hr. unfold run, extract_text_from_pdf, read_pages, bind, emit, ret.
  rewrite Hr. unfold enumerate. rewrite extract_pages_spec. simpl.
  reflexivity.
Qed.

End Extraction.

(** ** What an action leaves alone *)

Global Instance same_preorder {X : Type} (f : world → X) : PreOrder (same f).
Proof.
  split; [by intros w|]. intros a b c Hab Hbc. unfold same in *. congruence.
Qed.

Global Instance resources_kept_preorder : PreOrder resources_kept.
Proof.
  split; [by intros w key h|]. intros a b c Hab Hbc key h Ha. by apply Hbc, Hab.
Qed.

Lemma same_resources_kept (w w' : world) :
  same resources w w' → resources_kept w w'.
Proof. intros H key h. by rewrite H. Qed.

Section Keeps.

Context {R : relation world} `{!PreOrder R}.

Lemma keeps_ret {A : Type} (a : A) : keeps R (ret a).
Proof. intros w. reflexivity. Qed.

Lemma keeps_bind {A B : Type} (m : action A) (k : A → action B) :
  keeps R m → (∀ a, keeps R (k a)) → keeps R (bind m k).
Proof.
  intros Hm Hk w. unfold bind. specialize (Hm w).
  destruct (m w) as [a w']. simpl in Hm.
  etransitivity; [exact Hm | apply Hk].
Qed.

Lemma keeps_get_session : keeps R get_session.
Proof. intros w. reflexivity. Qed.

Lemma keeps_if {A : Type} (b : bool) (m1 m2 : action A) :
  keeps R m1 → keeps R m2 → keeps R (if b then m1 else m2).
Proof. by destruct b. Qed.

End Keeps.

Create HintDb keeps discriminated.
#[export] Hint Resolve keeps_ret keeps_get_session same_preorder
  resources_kept_preorder : keeps.

(** Decompose an action along its binds, conditionals and matches. *)
Ltac keeps_step :=
  cbv beta;
  first
    [ solve [ eauto with keeps ]
    | apply keeps_bind; [| intros ? ]
    | apply keeps_if
    | match goal with
      | |- keeps _ (match ?x with _ => _ end) => destruct x
      | |- keeps _ (let (_, _) := ?x in _) => destruct x
      end ].

Ltac keeps_auto := repeat keeps_step.

Lemma emit_session (e : event) : keeps (same session) (emit e).
Proof. by intros []. Qed.

Lemma emit_resources (e : event) : keeps (same resources) (emit e).
Proof. by intros []. Qed.

Lemma emit_objects (e : event) : keeps (same objects) (emit e).
Proof. by intros []. Qed.

Lemma emit_calls (e : event) : keeps (same calls) (emit e).
Proof. by intros []. Qed.

Lemma put_session_resources (s : session_state) :
  keeps (same resources) (put_session s).
Proof. by intros []. Qed.

Lemma put_session_objects (s : session_state) :
  keeps (same objects) (put_session s).
Proof. by intros []. Qed.

Lemma put_session_calls (s : session_state) : keeps (same calls) (put_session s).
Proof. by intros []. Qed.

Lemma put_session_log (s : session_state) : keeps (same log) (put_session s).
Proof. by intros []. Qed.

#[export] Hint Resolve emit_session emit_resources emit_objects emit_calls
  put_session_resources put_session_objects put_session_calls put_session_log
  : keeps.

Lemma modify_session_resources (f : session_state → session_state) :
  keeps (same resources) (modify_session f).
Proof. unfold modify_session. keeps_auto. Qed.

Lemma modify_session_objects (f : session_state → session_state) :
  keeps (same objects) (modify_session f).
Proof. unfold modify_session. keeps_auto. Qed.

Lemma modify_session_calls (f : session_state → session_state) :
  keeps (same calls) (modify_session f).
Proof. unfold modify_session. keeps_auto. Qed.

Lemma modify_session_log (f : session_state → session_state) :
  keeps (same log) (modify_session f).
Proof. unfold modify_session. keeps_auto. Qed.

#[export] Hint Resolve modify_session_resources modify_session_objects
  modify_session_calls modify_session_log : keeps.

(** ** The conversation sent to the model *)


Lemma history_cons (t : turn) (turns : list turn) :
  history (t :: turns) = user t.1 :: model t.2 :: history turns.
Proof. reflexivity. Qed.

Lemma replay_history_spec (turns : list turn) (messages : list message) :
  replay_history turns messages = messages ++ history turns.
Proof.
  revert messages. induction turns as [|[q a] turns IH]; intros messages.
  - simpl. by rewrite app_nil_r.
  - rewrite history_cons. cbn [replay_history]. rewrite IH.
    by rewrite <- !app_assoc.
Qed.

Lemma build_messages_spec (prompt : string) (turns : list turn) :
  build_messages prompt turns = history turns ++ [user prompt].
Proof. unfold build_messages. by rewrite replay_history_spec. Qed.

Lemma length_history (turns : list turn) : length (history turns) = 2 * length turns.
Proof.
  induction turns as [|t turns IH]; [done|].
  rewrite history_cons. simpl. rewrite IH. lia.
Qed.

Lemma lookup_history (turns : list turn) (i : nat) (q a : string) :
  turns !! i = Some (q, a) →
  history turns !! (2 * i) = Some (user q)
  ∧ history turns !! (2 * i + 1) = Some (model a).
Proof.
  revert i. induction turns as [|t turns IH]; intros i Hi; [done|].
  destruct i as [|i].
  - simpl in Hi. injection Hi as ->. done.
  - simpl in Hi. destruct (IH i Hi) as [Hq Ha].
    rewrite history_cons.
    replace (2 * S i) with (S (S (2 * i))) by lia.
    replace (S (S (2 * i)) + 1) with (S (S (2 * i + 1))) by lia.
    done.
Qed.

Section Conversation.

Variable generate_content : nat → model_handle → list message → except string.

Lemma try_generate_session m messages :
  keeps (same session) (try_generate generate_content m messages).
Proof. by intros []. Qed.

Lemma try_generate_resources m messages :
  keeps (same resources) (try_generate generate_content m messages).
Proof. by intros []. Qed.

Lemma try_generate_objects m messages :
  keeps (same objects) (try_generate generate_content m messages).
Proof. by intros []. Qed.

Hint Resolve try_generate_session try_generate_resources try_generate_objects
  : keeps.

Lemma retry_loop_keeps {X : Type} (f : world → X) m messages attempts :
  (∀ e, keeps (same f) (emit e)) →
  keeps (same f) (try_generate generate_content m messages) →
  keeps (same f) (retry_loop generate_content m messages attempts).
Proof.
  intros He Ht. induction attempts as [|attempt rest IH]; simpl; keeps_auto.
Qed.

Lemma ask_question_session m question document_text turns :
  keeps (same session)
    (ask_question generate_content m question document_text turns).
Proof. apply retry_loop_keeps; auto with keeps. Qed.

Lemma ask_question_resources m question document_text turns :
  keeps (same resources)
    (ask_question generate_content m question document_text turns).
Proof. apply retry_loop_keeps; auto with keeps. Qed.

Lemma ask_question_objects m question document_text turns :
  keeps (same objects)
    (ask_question generate_content m question document_text turns).
Proof. apply retry_loop_keeps; auto with keeps. Qed.

(** One iteration of the loop. *)
Lemma retry_loop_cons m messages attempt rest w :
  retry_loop generate_content m messages (attempt :: rest) w
  = match generate_content (calls w) m messages with
    | value text => (Some text, requested m messages w)
    | raises e =>
        if is_rate_limit e then
          if attempt <? MAX_RETRIES
          then retry_loop generate_content m messages rest
                 (paused attempt (requested m messages w))
          else (Some rate_limit_exceeded, requested m messages w)
        else (Some (unexpected_error e), requested m messages w)
    end.
Proof.
  cbn [retry_loop]. unfold bind at 1. unfold try_generate.
  destruct (generate_content (calls w) m messages) as [text|e]; [done|].
  destruct (is_rate_limit e); [|done].
  destruct (attempt <? MAX_RETRIES); done.
Qed.

(** The loop issues between one and [length attempts] requests, all of them
    for the same model with the same messages. *)
Lemma retry_loop_requests m messages attempts w :
  ∃ k new,
    k ≤ length attempts ∧ (attempts ≠ [] → 1 ≤ k)
    ∧ calls (retry_loop generate_content m messages attempts w).2 = calls w + k
    ∧ log (retry_loop generate_content m messages attempts w).2 = log w ++ new
    ∧ requests new = replicate k (m, messages).
Proof.
  revert w. induction attempts as [|attempt rest IH]; intros w.
  - exists 0, []. simpl. rewrite app_nil_r, Nat.add_0_r. done.
  - rewrite retry_loop_cons.
    assert (Hone : ∀ a : option string,
      ∃ k new,
        k ≤ length (attempt :: rest) ∧ (attempt :: rest ≠ [] → 1 ≤ k)
        ∧ calls (a, requested m messages w).2 = calls w + k
        ∧ log (a, requested m messages w).2 = log w ++ new
        ∧ requests new = replicate k (m, messages)).
    { intros a. exists 1, [GenerateContent m messages]. simpl.
      repeat split; try done; lia. }
    destruct (generate_content (calls w) m messages) as [text|e]; [apply Hone|].
    destruct (is_rate_limit e); [|apply Hone].
    destruct (attempt <? MAX_RETRIES); [|apply Hone].
    destruct (IH (paused attempt (requested m messages w)))
      as (k & new & Hk & _ & Hc & Hl & Hr).
    exists (S k),
      (GenerateContent m messages :: StWarning (rate_limit_warning attempt)
         :: Sleep RETRY_DELAY_SECONDS :: new).
    rewrite Hc, Hl. simpl. rewrite Hr, <- !app_assoc. simpl.
    repeat split; try done; lia.
Qed.

(** The loop returns a string whenever the last attempt to make is the one
    numbered [MAX_RETRIES]. *)
Lemma retry_loop_returns m messages (first count : nat) w :
  first + count = MAX_RETRIES →
  ∃ answer,
    (retry_loop generate_content m messages (seq first (S count)) w).1
    = Some answer.
Proof.
  revert first w. induction count as [|count IH]; intros first w Hsum.
  - change (seq first 1) with [first]. rewrite retry_loop_cons.
    destruct (generate_content (calls w) m messages) as [text|e]; [by eexists|].
    destruct (is_rate_limit e); [|by eexists].
    replace (first <? MAX_RETRIES) with false; [by eexists|].
    symmetry. apply Nat.ltb_ge. lia.
  - change (seq first (S (S count))) with (first :: seq (S first) (S count)).
    rewrite retry_loop_cons.
    destruct (generate_content (calls w) m messages) as [text|e]; [by eexists|].
    destruct (is_rate_limit e); [|by eexists].
    destruct (first <? MAX_RETRIES); [|by eexists].
    apply IH. lia.
Qed.

(** [ask_question] never returns [None]. *)
Lemma ask_question_returns m question document_text turns w :
  ∃ answer,
    (ask_question generate_content m question document_text turns w).1
    = Some answer.
Proof.
  unfold ask_question.
  change (range 1 (MAX_RETRIES + 1)) with (seq 1 (S 2)).
  by apply retry_loop_returns.
Qed.

(** C1.  Whatever the history of n past turns and the question,
    [ask_question] sends the model one and the same message sequence in each
    of its requests (at least one, at most [MAX_RETRIES]); that sequence has
    length 2n+1; for the i-th past turn, in chronological order, it holds at
    position 2i a "user" message with the past question and at position
    2i+1 a "model" message with the past answer; its last entry is a single
    "user" message with the newly built augmented prompt. *)
Theorem ask_question_messages (m : model_handle)
    (question document_text : string) (turns : list turn) (w : world) :
  let messages := build_messages (build_prompt document_text question) turns in
  let w' := (run (ask_question generate_content m question document_text turns) w).2 in
  (∃ k new,
     1 ≤ k ≤ MAX_RETRIES
     ∧ calls w' = calls w + k
     ∧ log w' = log w ++ new
     ∧ requests new = replicate k (m, messages))
  ∧ length messages = 2 * length turns + 1
  ∧ (∀ i q a,
       turns !! i = Some (q, a) →
       messages !! (2 * i) = Some {| role := "user"; parts := [q] |}
       ∧ messages !! (2 * i + 1) = Some {| role := "model"; parts := [a] |})
  ∧ messages !! (2 * length turns)
    = Some {| role := "user"; parts := [build_prompt document_text question] |}.
Proof.
  intros messages w'. split; [|split; [|split]].
  - destruct (retry_loop_requests m messages (range 1 (MAX_RETRIES + 1)) w)
      as (k & new & Hk & Hpos & Hc & Hl & Hr).
    exists k, new. repeat split; try done.
    by apply Hpos.
  - unfold messages. rewrite build_messages_spec, length_app, length_history.
    simpl. lia.
  - intros i q a Hi. unfold messages. rewrite build_messages_spec.
    destruct (lookup_history turns i q a Hi) as [Hq Ha].
    split; apply lookup_app_l_Some; assumption.
  - unfold messages. rewrite build_messages_spec.
    rewrite <- length_history. by rewrite list_lookup_middle.
Qed.

(** C2.  If each of the [MAX_RETRIES] requests that [ask_question] can make
    fails with an error bearing the rate-limit signature, then [ask_question]
    makes exactly 3 requests, with a warning and a pause of 15 seconds
    between one request and the next, does nothing else, and returns the
    fixed message about the exhausted retries. *)
Theorem ask_question_rate_limited (m : model_handle)
    (question document_text : string) (turns : list turn) (w : world) :
  let messages := build_messages (build_prompt document_text question) turns in
  (∀ k, k < MAX_RETRIES →
     ∃ e, generate_content (calls w + k) m messages = raises e
          ∧ is_rate_limit e = true) →
  run (ask_question generate_content m question document_text turns) w
  = (Some ("❌ Rate limit exceeded after multiple retries. " +:+
           "Please wait a minute and try again. " +:+
           "Tip: Each student should use their own API key!"),
     {| session := session w; resources := resources w; objects := objects w;
        calls := calls w + 3;
        log := log w ++
          [GenerateContent m messages;
           StWarning "⏳ Rate limit hit. Waiting 15s before retry 1/2...";
           Sleep 15;
           GenerateContent m messages;
           StWarning "⏳ Rate limit hit. Waiting 15s before retry 2/2...";
           Sleep 15;
           GenerateContent m messages] |}).
Proof.
  intros messages H.
  destruct (H 0) as (e0 & H0 & L0); [unfold MAX_RETRIES; lia|].
  destruct (H 1) as (e1 & H1 & L1); [unfold MAX_RETRIES; lia|].
  destruct (H 2) as (e2 & H2 & L2); [unfold MAX_RETRIES; lia|].
  rewrite Nat.add_0_r in H0.
  unfold run, ask_question. fold messages.
  change (range 1 (MAX_RETRIES + 1)) with [1; 2; 3].
  rewrite retry_loop_cons, H0, L0. change (1 <? MAX_RETRIES) with true. cbv iota.
  rewrite retry_loop_cons.
  change (calls (paused 1 (requested m messages w))) with (S (calls w)).
  replace (S (calls w)) with (calls w + 1) by lia.
  rewrite H1, L1. change (2 <? MAX_RETRIES) with true. cbv iota.
  rewrite retry_loop_cons.
  change (calls (paused 2 (requested m messages (paused 1 (requested m messages w)))))
    with (S (S (calls w))).
  replace (S (S (calls w))) with (calls w + 2) by lia.
  rewrite H2, L2. change (3 <? MAX_RETRIES) with false. cbv iota.
  f_equal. unfold requested, paused. simpl. f_equal; [lia|].
  rewrite <- !app_assoc. reflexivity.
Qed.

(** C3.  If the first request fails with an error that does not bear the
    rate-limit signature, [ask_question] makes that single request, neither
    warns nor waits, and returns at once the message made of a fixed prefix
    followed by the raw error text. *)
Theorem ask_question_unexpected_error (m : model_handle)
    (question document_text : string) (turns : list turn) (w : world) (e : string) :
  let messages := build_messages (build_prompt document_text question) turns in
  generate_content (calls w) m messages = raises e →
  is_rate_limit e = false →
  run (ask_question generate_content m question document_text turns) w
  = (Some ("❌ Unexpected error: " +:+ e),
     {| session := session w; resources := resources w; objects := objects w;
        calls := calls w + 1;
        log := log w ++ [GenerateContent m messages] |}).
Proof.
  intros messages He Hl.
  unfold run, ask_question. fold messages.
  change (range 1 (MAX_RETRIES + 1)) with [1; 2; 3].
  rewrite retry_loop_cons, He, Hl.
  unfold requested, unexpected_error. do 2 f_equal. lia.
Qed.

End Conversation.

(** ** The augmented prompt *)

Section Prompt.

Import Prompt_spec.

Lemma prefix_append (p s : string) : String.prefix p (p +:+ s) = true.
Proof.
  induction p as [|c p IH]; [by destruct s|].
  rewrite append_cons. simpl. by destruct (ascii_dec c c).
Qed.

Lemma drop_string_append (p s : string) :
  drop_string (String.length p) (p +:+ s) = s.
Proof. induction p as [|c p IH]; [by destruct s | exact IH]. Qed.

Lemma suffixes_after_unfold (p s : string) :
  suffixes_after p s
  = (if String.prefix p s then [drop_string (String.length p) s] else [])
    ++ match s with
       | EmptyString => []
       | String _ s' => suffixes_after p s'
       end.
Proof. by destruct s. Qed.

Lemma suffixes_after_complete (p before after : string) :
  In after (suffixes_after p (before +:+ p +:+ after)).
Proof.
  induction before as [|c before IH].
  - rewrite append_nil, suffixes_after_unfold.
    rewrite prefix_append, drop_string_append.
    apply in_or_app. left. by left.
  - rewrite append_cons, suffixes_after_unfold. apply in_or_app. by right.
Qed.

Lemma in_order_complete (parts : list string) (s : string) :
  in_order parts s → in_order_b parts s = true.
Proof.
  revert s. induction parts as [|p rest IH]; intros s; [done|].
  intros (before & after & -> & Hrest). simpl.
  apply existsb_exists. exists after. split; [|by apply IH].
  apply suffixes_after_complete.
Qed.

(** The claim C4 as it is worded puts the question before the instruction.
    For the document "D" and the question "Zebra" the prompt has no such
    arrangement: nothing but a line break follows the question. *)
Lemma build_prompt_not_question_then_instruction :
  ¬ in_order [document_start; "D"; document_end; "Zebra"; instruction]
      (build_prompt "D" "Zebra").
Proof.
  intros H. apply in_order_complete in H. vm_compute in H. discriminate H.
Qed.

(** Nothing but a line break follows the question. *)
Lemma build_prompt_after_question (before after : string) :
  build_prompt "D" "Zebra" = before +:+ "Zebra" +:+ after → after = nl.
Proof.
  intros H. pose proof (suffixes_after_complete "Zebra" before after) as Hin.
  rewrite <- H in Hin. vm_compute in Hin.
  destruct Hin as [<-|[]]. reflexivity.
Qed.

(** C4, amended.  The augmented prompt is, in this order: a line break, the
    preamble, an empty line, the start delimiter, the entire document text on
    the lines that follow, the end delimiter, an empty line, the instruction
    to answer only from the document above, and then the literal question
    followed by a line break.  An empty document text leaves the two
    delimiters with an empty line between them, and an empty question leaves
    the instruction followed by an empty line. *)
Theorem build_prompt_layout (document_text question : string) :
  build_prompt document_text question
  = nl +:+ preamble +:+ nl +:+ nl +:+
    document_start +:+ nl +:+ document_text +:+ nl +:+ document_end +:+ nl +:+
    nl +:+ instruction +:+ nl +:+ question +:+ nl
  ∧ in_order [document_start; document_text; document_end; instruction; question]
      (build_prompt document_text question)
  ∧ build_prompt "" question
    = nl +:+ preamble +:+ nl +:+ nl +:+
      document_start +:+ nl +:+ nl +:+ document_end +:+ nl +:+
      nl +:+ instruction +:+ nl +:+ question +:+ nl
  ∧ build_prompt document_text ""
    = nl +:+ preamble +:+ nl +:+ nl +:+
      document_start +:+ nl +:+ document_text +:+ nl +:+ document_end +:+ nl +:+
      nl +:+ instruction +:+ nl +:+ nl.
Proof.
  assert (Heq : ∀ d q,
    build_prompt d q
    = nl +:+ preamble +:+ nl +:+ nl +:+
      document_start +:+ nl +:+ d +:+ nl +:+ document_end +:+ nl +:+
      nl +:+ instruction +:+ nl +:+ q +:+ nl) by reflexivity.
  split; [apply Heq|]. split; [|split].
  - rewrite Heq.
    exists (nl +:+ preamble +:+ nl +:+ nl),
      (nl +:+ document_text +:+ nl +:+ document_end +:+ nl +:+
       nl +:+ instruction +:+ nl +:+ question +:+ nl).
    split; [reflexivity|].
    exists nl,
      (nl +:+ document_end +:+ nl +:+ nl +:+ instruction +:+ nl +:+ question +:+ nl).
    split; [reflexivity|].
    exists nl, (nl +:+ nl +:+ instruction +:+ nl +:+ question +:+ nl).
    split; [reflexivity|].
    exists (nl +:+ nl), (nl +:+ question +:+ nl).
    split; [reflexivity|].
    exists nl, nl. split; [reflexivity|]. exact I.
  - rewrite Heq. reflexivity.
  - rewrite Heq. by rewrite append_nil.
Qed.

End Prompt.

(** ** The script *)

Global Instance preserved_preorder (P : world → Prop) : PreOrder (preserved P).
Proof.
  split; [by intros w Hw|]. intros a b c Hab Hbc Ha. by apply Hbc, Hab.
Qed.

#[export] Hint Resolve preserved_preorder : keeps.

Lemma keeps_weaken {A : Type} (R R' : relation world) (m : action A) :
  (∀ w w', R w w' → R' w w') → keeps R m → keeps R' m.
Proof. intros HR Hm w. apply HR, Hm. Qed.

Lemma same_session_consistent (w w' : world) :
  same session w w' → preserved consistent w w'.
Proof. unfold same, preserved, consistent. by intros ->. Qed.

Lemma bind_run {A B : Type} (m : action A) (k : A → action B) (w : world) :
  bind m k w = k (m w).1 (m w).2.
Proof. unfold bind. by destruct (m w). Qed.

Lemma keeps_same_eq {A X : Type} (f : world → X) (m : action A) (w : world) :
  keeps (same f) m → f (m w).2 = f w.
Proof. intros H. apply H. Qed.

Section Script.

Variable PdfReader : uploaded_file → except (list page).
Variable generate_content : nat → model_handle → list message → except string.

(** *** [extract_text_from_pdf] *)

Lemma extract_text_from_pdf_value (file : uploaded_file) (text : string) (w : world) :
  read_pages PdfReader file = value text →
  extract_text_from_pdf PdfReader file w
  = (text,
     {| session := session w; resources := resources w; objects := objects w;
        calls := calls w; log := log w ++ [ReadPdf file] |}).
Proof.
  intros H. unfold extract_text_from_pdf, bind, emit, ret.
  by rewrite H.
Qed.

Lemma extract_text_from_pdf_raises (file : uploaded_file) (e : string) (w : world) :
  read_pages PdfReader file = raises e →
  extract_text_from_pdf PdfReader file w
  = ("",
     {| session := session w; resources := resources w; objects := objects w;
        calls := calls w;
        log := (log w ++ [ReadPdf file])
                 ++ [StError ("❌ Failed to read PDF: " +:+ e)] |}).
Proof.
  intros H. unfold extract_text_from_pdf, bind, emit, ret.
  by rewrite H.
Qed.

Lemma extract_text_from_pdf_session (file : uploaded_file) :
  keeps (same session) (extract_text_from_pdf PdfReader file).
Proof. unfold extract_text_from_pdf. keeps_auto. Qed.

Lemma extract_text_from_pdf_resources (file : uploaded_file) :
  keeps (same resources) (extract_text_from_pdf PdfReader file).
Proof. unfold extract_text_from_pdf. keeps_auto. Qed.

Lemma extract_text_from_pdf_objects (file : uploaded_file) :
  keeps (same objects) (extract_text_from_pdf PdfReader file).
Proof. unfold extract_text_from_pdf. keeps_auto. Qed.

Lemma extract_text_from_pdf_calls (file : uploaded_file) :
  keeps (same calls) (extract_text_from_pdf PdfReader file).
Proof. unfold extract_text_from_pdf. keeps_auto. Qed.

Hint Resolve extract_text_from_pdf_session extract_text_from_pdf_resources
  extract_text_from_pdf_objects extract_text_from_pdf_calls : keeps.

(** Reading the pages fails exactly when the parser raises or some page does. *)
Lemma read_pages_raises_parser (file : uploaded_file) (e : string) :
  PdfReader file = raises e → read_pages PdfReader file = raises e.
Proof. intros H. unfold read_pages. by rewrite H. Qed.

Lemma read_pages_raises_page (file : uploaded_file)
    (before : list (option string)) (after : list page) (e : string) :
  PdfReader file = value ((value <$> before) ++ raises e :: after) →
  read_pages PdfReader file = raises e.
Proof.
  intros H. unfold read_pages, enumerate. rewrite H. clear H.
  generalize 0 as first. generalize "" as acc.
  induction before as [|pg before IH]; intros acc first; simpl; [done|].
  destruct pg as [text|]; [destruct (truthy text)|]; apply IH.
Qed.

(** *** The upload block *)

(** A file that the script takes for a new one and whose text is not empty
    is stored and the history is emptied. *)
Lemma process_upload_stores (file : uploaded_file) (text : string) (w : world) :
  is_new_file (session w) file = true →
  read_pages PdfReader file = value text →
  text ≠ "" →
  process_upload PdfReader (Some file) w
  = (tt,
     {| session := {| document_text := Some text;
                      last_file := Some (name file);
                      chat_history := Some [] |};
        resources := resources w; objects := objects w; calls := calls w;
        log := (log w ++ [ReadPdf file]) ++ [StSuccess (pdf_loaded text)] |}).
Proof.
  intros Hnew Hread Htext. apply truthy_true in Htext.
  unfold process_upload, bind at 1, get_session. rewrite Hnew.
  unfold bind at 1. rewrite (extract_text_from_pdf_value _ _ _ Hread), Htext.
  reflexivity.
Qed.

(** A file that the script takes for a new one and that yields no text,
    be it that reading it raised, is not stored. *)
Lemma process_upload_rejects (file : uploaded_file) (w : world) :
  is_new_file (session w) file = true →
  (extract_text_from_pdf PdfReader file w).1 = "" →
  process_upload PdfReader (Some file) w
  = (tt,
     {| session := session w; resources := resources w; objects := objects w;
        calls := calls w;
        log := log (extract_text_from_pdf PdfReader file w).2
                 ++ [StError "Could not extract text. Is this a scanned PDF?"] |}).
Proof.
  intros Hnew Hempty.
  pose proof (extract_text_from_pdf_session file w) as Hs.
  pose proof (extract_text_from_pdf_resources file w) as Hr.
  pose proof (extract_text_from_pdf_objects file w) as Ho.
  pose proof (extract_text_from_pdf_calls file w) as Hc.
  unfold same in *.
  unfold process_upload, bind at 1, get_session. rewrite Hnew.
  unfold bind at 1.
  destruct (extract_text_from_pdf PdfReader file w) as [text w1].
  simpl in *. subst text. simpl. unfold emit. by rewrite Hs, Hr, Ho, Hc.
Qed.

(** A file that the script does not take for a new one is not looked at. *)
Lemma process_upload_skips (file : uploaded_file) (w : world) :
  is_new_file (session w) file = false →
  process_upload PdfReader (Some file) w = (tt, w).
Proof.
  intros Hnew. unfold process_upload, bind at 1, get_session. by rewrite Hnew.
Qed.

Lemma process_upload_cases (upload : option uploaded_file) (w : world) :
  session (process_upload PdfReader upload w).2 = session w
  ∨ ∃ file text,
      upload = Some file
      ∧ session (process_upload PdfReader upload w).2
        = {| document_text := Some text; last_file := Some (name file);
             chat_history := Some [] |}.
Proof.
  destruct upload as [file|]; [|by left].
  destruct (is_new_file (session w) file) eqn:Hnew;
    [|left; by rewrite process_upload_skips].
  destruct (truthy (extract_text_from_pdf PdfReader file w).1) eqn:Ht.
  - right. exists file, (extract_text_from_pdf PdfReader file w).1.
    split; [done|].
    unfold process_upload, bind at 1, get_session. rewrite Hnew.
    unfold bind at 1.
    destruct (extract_text_from_pdf PdfReader file w) as [text w1].
    simpl in Ht. rewrite Ht. reflexivity.
  - left. rewrite process_upload_rejects; [done..|].
    destruct (extract_text_from_pdf PdfReader file w).1; [done|discriminate].
Qed.

(** *** [load_model] *)

Lemma load_model_cached (key : string) (h : model_handle) (w : world) :
  resources w !! key = Some h → load_model key w = (h, w).
Proof. intros H. unfold load_model, cache_resource. by rewrite H. Qed.

Lemma load_model_fresh (key : string) (w : world) :
  resources w !! key = None →
  load_model key w
  = ({| handle_id := objects w; model_name := MODEL_NAME;
        system_instruction := SYSTEM_PROMPT |},
     {| session := session w;
        resources := <[key := {| handle_id := objects w; model_name := MODEL_NAME;
                                 system_instruction := SYSTEM_PROMPT |}]>
                       (resources w);
        objects := S (objects w); calls := calls w;
        log := log w ++ [Configure key] |}).
Proof. intros H. unfold load_model, cache_resource. by rewrite H. Qed.

Lemma load_model_stored (key : string) (w : world) :
  resources (load_model key w).2 !! key = Some (load_model key w).1.
Proof.
  destruct (resources w !! key) as [h|] eqn:H.
  - by rewrite (load_model_cached _ _ _ H).
  - rewrite (load_model_fresh _ _ H). simpl. apply lookup_insert_eq.
Qed.

Lemma load_model_session (key : string) : keeps (same session) (load_model key).
Proof.
  intros w. destruct (resources w !! key) as [h|] eqn:H.
  - by rewrite (load_model_cached _ _ _ H).
  - by rewrite (load_model_fresh _ _ H).
Qed.

Lemma load_model_calls (key : string) : keeps (same calls) (load_model key).
Proof.
  intros w. destruct (resources w !! key) as [h|] eqn:H.
  - by rewrite (load_model_cached _ _ _ H).
  - by rewrite (load_model_fresh _ _ H).
Qed.

Lemma load_model_resources_kept (key : string) :
  keeps resources_kept (load_model key).
Proof.
  intros w k h Hk. destruct (resources w !! key) as [h'|] eqn:H.
  - by rewrite (load_model_cached _ _ _ H).
  - rewrite (load_model_fresh _ _ H). simpl.
    rewrite lookup_insert_ne; [done|]. intros ->. congruence.
Qed.

(** *** The rest of the script *)

Lemma display_history_keeps (R : relation world) `{!PreOrder R} (turns : list turn) :
  (∀ e, keeps R (emit e)) → keeps R (display_history turns).
Proof.
  intros He. induction turns as [|[q a] turns IH]; simpl; keeps_auto.
Qed.

Lemma keeps_same_resources_kept {A : Type} (m : action A) :
  keeps (same resources) m → keeps resources_kept m.
Proof. apply keeps_weaken, same_resources_kept. Qed.

Lemma keeps_same_session_consistent {A : Type} (m : action A) :
  keeps (same session) m → keeps (preserved consistent) m.
Proof. apply keeps_weaken, same_session_consistent. Qed.

Lemma set_chat_history_consistent (turns : list turn) :
  keeps (preserved consistent) (modify_session (set_chat_history turns)).
Proof.
  intros [s r o c l] H Hfile. destruct (H Hfile) as [Hd _].
  split; [exact Hd | by eexists].
Qed.

Lemma append_turn_consistent (t : turn) :
  keeps (preserved consistent) (modify_session (append_turn t)).
Proof.
  intros [s r o c l] H Hfile. destruct (H Hfile) as [Hd _].
  split; [exact Hd | by eexists].
Qed.

Hint Resolve load_model_session load_model_calls load_model_resources_kept
  : keeps.
Hint Resolve ask_question_session ask_question_resources ask_question_objects
  : keeps.
Hint Resolve set_chat_history_consistent append_turn_consistent : keeps.
Hint Resolve keeps_same_resources_kept keeps_same_session_consistent : keeps.

Lemma from_clear_button_resources_kept (ui : widgets) :
  keeps resources_kept (from_clear_button generate_content ui).
Proof.
  unfold from_clear_button, answer_question.
  keeps_auto; apply display_history_keeps; [apply _ | auto with keeps].
Qed.

Lemma from_clear_button_consistent (ui : widgets) :
  keeps (preserved consistent) (from_clear_button generate_content ui).
Proof.
  unfold from_clear_button, answer_question.
  keeps_auto; apply display_history_keeps; [apply _ | auto with keeps].
Qed.

Lemma main_resources_kept (ui : widgets) :
  keeps resources_kept (main PdfReader generate_content ui).
Proof.
  unfold main. apply keeps_bind; [|intros; apply from_clear_button_resources_kept].
  apply keeps_same_resources_kept.
  unfold process_upload. keeps_auto.
Qed.

Lemma main_consistent (ui : widgets) :
  keeps (preserved consistent) (main PdfReader generate_content ui).
Proof.
  unfold main. apply keeps_bind; [|intros; apply from_clear_button_consistent].
  intros w Hw. unfold consistent.
  destruct (process_upload_cases (uploaded ui) w) as [->|(file & text & _ & ->)];
    [exact Hw|].
  intros _. split; by eexists.
Qed.

(** In a session the file name is bound only together with the text and the
    history. *)
Lemma reachable_consistent (w : world) :
  reachable PdfReader generate_content w → consistent w.
Proof.
  induction 1 as [|ui w _ IH]; [by intros [? [=]]|].
  by apply main_consistent.
Qed.

Lemma consistent_same_name (file : uploaded_file) (w : world) :
  consistent w →
  last_file (session w) = Some (name file) →
  is_new_file (session w) file = false.
Proof.
  intros Hc Hfile. destruct Hc as [[text Ht] _]; [by eexists|].
  unfold is_new_file. rewrite Ht, Hfile.
  rewrite bool_decide_eq_false_2 by done.
  rewrite bool_decide_eq_false_2 by (intros H; by apply H).
  done.
Qed.

(** A run in which no question is submitted touches the session state only
    in the upload block, but for the history: the clear button empties it and
    line 264 binds it when it is not bound yet. *)
Lemma from_clear_button_idle (ui : widgets) (w : world) :
  user_question ui = None →
  session (from_clear_button generate_content ui w).2
  = set_chat_history
      (if clear_clicked ui then [] else default [] (chat_history (session w)))
      (session w).
Proof.
  intros Hq. unfold from_clear_button. rewrite Hq.
  destruct w as [[d f h] r o c l].
  destruct (clear_clicked ui); [done|].
  destruct h as [turns|], d as [text|]; try done;
    destruct (truthy (api_key ui)); try done; simpl.
  - repeat (rewrite bind_run; simpl).
    rewrite keeps_same_eq; [done|].
    apply display_history_keeps; [apply _ | auto with keeps].
Qed.

Lemma keeps_same_session_stored_document {A : Type} (m : action A) :
  keeps (same session) m → keeps (same stored_document) m.
Proof.
  apply keeps_weaken. unfold same, stored_document. by intros w w' ->.
Qed.

Lemma set_chat_history_stored_document (turns : list turn) :
  keeps (same stored_document) (modify_session (set_chat_history turns)).
Proof. by intros []. Qed.

Lemma append_turn_stored_document (t : turn) :
  keeps (same stored_document) (modify_session (append_turn t)).
Proof. by intros []. Qed.

Hint Resolve keeps_same_session_stored_document
  set_chat_history_stored_document append_turn_stored_document : keeps.

Lemma from_clear_button_stored_document (ui : widgets) :
  keeps (same stored_document) (from_clear_button generate_content ui).
Proof.
  unfold from_clear_button, answer_question.
  keeps_auto; apply display_history_keeps; [apply _ | auto with keeps].
Qed.

(** C7.  Whatever the session state, hence after any number of completed
    turns: when a run of the script loads a new document, that is, a file is
    uploaded that the script takes for a new one (no document is stored or
    the file's name is not the stored one), its extraction gives a text that
    is not empty, and no question is submitted in that same run, then at the
    end of the run the history is the empty list and the stored text is
    exactly the text extracted from the new file. *)
Theorem new_document_resets_history (ui : widgets) (file : uploaded_file)
    (text : string) (w : world) :
  uploaded ui = Some file →
  user_question ui = None →
  is_new_file (session w) file = true →
  read_pages PdfReader file = value text →
  text ≠ "" →
  session (run (main PdfReader generate_content ui) w).2
  = {| document_text := Some text; last_file := Some (name file);
       chat_history := Some [] |}.
Proof.
  intros Hup Hq Hnew Hread Htext.
  unfold run, main. rewrite bind_run, Hup.
  rewrite (process_upload_stores file text w Hnew Hread Htext).
  rewrite from_clear_button_idle by done. simpl.
  by destruct (clear_clicked ui).
Qed.

(** C8.  When anything raises while the PDF is read, [extract_text_from_pdf]
    returns the empty string (after it has displayed the error) and does not
    raise, and the caller stores nothing: the upload block leaves the session
    state as it was, and at the end of the run the stored text and file name
    are those from before the run; if moreover nothing else is asked of that
    run, so is the history. *)
Theorem unreadable_pdf_is_not_stored (ui : widgets) (file : uploaded_file)
    (e : string) (w : world) :
  uploaded ui = Some file →
  read_pages PdfReader file = raises e →
  run (extract_text_from_pdf PdfReader file) w
  = ("",
     {| session := session w; resources := resources w; objects := objects w;
        calls := calls w;
        log := (log w ++ [ReadPdf file])
                 ++ [StError ("❌ Failed to read PDF: " +:+ e)] |})
  ∧ session (run (process_upload PdfReader (Some file)) w).2 = session w
  ∧ stored_document (run (main PdfReader generate_content ui) w).2
    = stored_document w
  ∧ (user_question ui = None → clear_clicked ui = false →
     ∀ turns, chat_history (session w) = Some turns →
       chat_history (session (run (main PdfReader generate_content ui) w).2)
       = Some turns).
Proof.
  intros Hup Hread. unfold run.
  assert (Hs : session (process_upload PdfReader (Some file) w).2 = session w).
  { destruct (is_new_file (session w) file) eqn:Hnew.
    - rewrite process_upload_rejects; [done..|].
      by rewrite (extract_text_from_pdf_raises _ _ _ Hread).
    - by rewrite process_upload_skips. }
  split; [by apply extract_text_from_pdf_raises|].
  split; [exact Hs|]. split.
  - unfold main. rewrite bind_run, Hup.
    rewrite (keeps_same_eq stored_document)
      by apply from_clear_button_stored_document.
    unfold stored_document. by rewrite Hs.
  - intros Hq Hclear turns Hturns.
    unfold main. rewrite bind_run, Hup.
    rewrite from_clear_button_idle by done.
    rewrite Hclear, Hs, Hturns. reflexivity.
Qed.

(** C9.  Calling [load_model] a second time with the same credential gives
    back the very handle of the first call and leaves the world as the first
    call left it: no second [genai.configure], no second object.  Over the
    two calls the credential is configured at most once.  And no run of the
    script replaces or alters a handle that is in the cache. *)
Theorem load_model_idempotent (key : string) (w : world) :
  let first := run (load_model key) w in
  let second := run (load_model key) first.2 in
  second = first
  ∧ (log second.2 = log w ∨ log second.2 = log w ++ [Configure key])
  ∧ (∀ ui w0 k h,
       resources w0 !! k = Some h →
       resources (run (main PdfReader generate_content ui) w0).2 !! k = Some h).
Proof.
  intros first second. split; [|split].
  - unfold second, first, run.
    rewrite (load_model_cached key _ _ (load_model_stored key w)).
    by destruct (load_model key w).
  - unfold second, first, run.
    rewrite (load_model_cached key _ _ (load_model_stored key w)). simpl.
    destruct (resources w !! key) as [h|] eqn:H.
    + left. by rewrite (load_model_cached _ _ _ H).
    + right. by rewrite (load_model_fresh _ _ H).
  - intros ui w0 k h. apply main_resources_kept.
Qed.

(** C10.  In a session, when the uploaded file bears the stored file name,
    the upload block does nothing at all: the file is not read, nothing is
    displayed, and text, file name and history stay as they are; the whole
    run is the run that would have taken place with no file in the uploader.
    This holds for every content of the file: only the name is compared. *)
Theorem same_name_upload_is_ignored (ui : widgets) (file : uploaded_file)
    (w : world) :
  reachable PdfReader generate_content w →
  last_file (session w) = Some (name file) →
  uploaded ui = Some file →
  run (process_upload PdfReader (Some file)) w = (tt, w)
  ∧ run (main PdfReader generate_content ui) w
    = run (main PdfReader generate_content
             {| api_key := api_key ui; uploaded := None;
                clear_clicked := clear_clicked ui;
                user_question := user_question ui |}) w.
Proof.
  intros Hreach Hfile Hup. unfold run.
  assert (Hskip : process_upload PdfReader (Some file) w = (tt, w)).
  { apply process_upload_skips, consistent_same_name; [|done].
    by apply reachable_consistent. }
  split; [exact Hskip|].
  unfold main. rewrite !bind_run, Hup, Hskip. reflexivity.
Qed.

(** *** Answering a question *)

(** What the loop returns depends on the world only through the number of
    requests issued so far. *)
Lemma retry_loop_answer_calls m messages attempts (w1 w2 : world) :
  calls w1 = calls w2 →
  (retry_loop generate_content m messages attempts w1).1
  = (retry_loop generate_content m messages attempts w2).1.
Proof.
  revert w1 w2. induction attempts as [|attempt rest IH]; intros w1 w2 Hc; [done|].
  rewrite !retry_loop_cons, Hc.
  destruct (generate_content (calls w2) m messages) as [text|e]; [done|].
  destruct (is_rate_limit e); [|done].
  destruct (attempt <? MAX_RETRIES); [|done].
  apply IH. simpl. by rewrite Hc.
Qed.

Lemma ask_question_answer_calls m question document_text turns (w1 w2 : world) :
  calls w1 = calls w2 →
  (ask_question generate_content m question document_text turns w1).1
  = (ask_question generate_content m question document_text turns w2).1.
Proof. apply retry_loop_answer_calls. Qed.

(** The handle that [load_model] gives depends on the world only through the
    cache and the number of objects. *)
Lemma load_model_handle (key : string) (w1 w2 : world) :
  resources w1 = resources w2 →
  objects w1 = objects w2 →
  (load_model key w1).1 = (load_model key w2).1.
Proof.
  intros Hr Ho. unfold load_model, cache_resource. rewrite Hr.
  destruct (resources w2 !! key); [done|]. simpl. by rewrite Ho.
Qed.

(** The turn is appended with whatever string [ask_question] returned. *)
Lemma answer_question_session (key question document_text answer : string)
    (w : world) :
  (ask_question generate_content (load_model key w).1 question document_text
     (default [] (chat_history (session w))) w).1 = Some answer →
  session (answer_question generate_content key question document_text w).2
  = append_turn (question, answer) (session w).
Proof.
  intros Hanswer. unfold answer_question.
  rewrite bind_run.
  set (w1 := (emit (ChatMessage "user" question) w).2).
  rewrite bind_run.
  set (w2 := (load_model key w1).2).
  rewrite (load_model_handle key w1 w) by by destruct w.
  assert (Hs2 : session w2 = session w).
  { unfold w2. rewrite (keeps_same_eq session) by auto with keeps. by destruct w. }
  assert (Hc2 : calls w2 = calls w).
  { unfold w2. rewrite (keeps_same_eq calls) by auto with keeps. by destruct w. }
  rewrite bind_run. cbn [get_session fst snd]. rewrite Hs2.
  rewrite bind_run.
  rewrite (ask_question_answer_calls _ _ _ _ w2 w Hc2), Hanswer.
  rewrite bind_run. unfold modify_session. rewrite bind_run. simpl.
  rewrite (keeps_same_eq session) by auto with keeps.
  by rewrite Hs2.
Qed.

(** C6.  In a run in which the upload block has nothing to do (no file in
    the uploader, or the file that is already loaded) and a question is
    submitted, the string that [ask_question] returns for the turn, and so
    each of its two error messages just like a generated answer, is appended
    to the history as the answer of that turn; and on every later question
    the conversation rebuilt from the history presents that string as a
    "model" message, right after the "user" message with the question of
    the turn. *)
Theorem error_turn_is_stored (ui : widgets) (w : world)
    (text question answer : string) (turns : list turn) :
  run (process_upload PdfReader (uploaded ui)) w = (tt, w) →
  clear_clicked ui = false →
  truthy (api_key ui) = true →
  user_question ui = Some question →
  truthy question = true →
  document_text (session w) = Some text →
  chat_history (session w) = Some turns →
  (run (ask_question generate_content (run (load_model (api_key ui)) w).1
          question text turns) w).1 = Some answer →
  chat_history (session (run (main PdfReader generate_content ui) w).2)
  = Some (turns ++ [(question, answer)])
  ∧ ∀ later_document later_question,
      build_messages (build_prompt later_document later_question)
        (turns ++ [(question, answer)])
      = history turns
        ++ [user question; model answer;
            user (build_prompt later_document later_question)].
Proof.
  intros Hup Hclear Hkey Hq Htq Hdoc Hturns Hanswer. unfold run in *. split.
  - unfold main. rewrite bind_run, Hup. cbn [fst snd].
    unfold from_clear_button. rewrite Hclear, Hkey, Hq, Htq. cbn [negb].
    destruct w as [[d f h] r o c l]. simpl in Hdoc, Hturns. subst d h.
    repeat (rewrite bind_run; simpl).
    match goal with
    | |- context [answer_question _ _ _ _ ?v] => set (w1 := v)
    end.
    assert (Hs : session w1 = SessionState (Some text) f (Some turns)).
    { unfold w1. rewrite (keeps_same_eq session); [done|].
      apply display_history_keeps; [apply _ | auto with keeps]. }
    assert (Hr : resources w1 = r).
    { unfold w1. rewrite (keeps_same_eq resources); [done|].
      apply display_history_keeps; [apply _ | auto with keeps]. }
    assert (Ho : objects w1 = o).
    { unfold w1. rewrite (keeps_same_eq objects); [done|].
      apply display_history_keeps; [apply _ | auto with keeps]. }
    assert (Hc : calls w1 = c).
    { unfold w1. rewrite (keeps_same_eq calls); [done|].
      apply display_history_keeps; [apply _ | auto with keeps]. }
    rewrite (answer_question_session _ _ _ answer).
    + by rewrite Hs.
    + rewrite Hs. simpl.
      rewrite (load_model_handle _ w1
                 (World (SessionState (Some text) f (Some turns)) r o c l))
        by done.
      rewrite <- Hanswer. by apply ask_question_answer_calls.
  - intros later_document later_question.
    rewrite build_messages_spec. unfold history.
    rewrite bind_app, <- app_assoc. reflexivity.
Qed.

End Script.

(** ** The theorems at the sample inputs *)

Lemma ask_question_rate_limited_witness :
  run (ask_question Sample.limited Sample.handle "Why?" "alpha" [("Who?", "Nobody.")])
      initial_world
  = (Some ("❌ Rate limit exceeded after multiple retries. " +:+
           "Please wait a minute and try again. " +:+
           "Tip: Each student should use their own API key!"),
     {| session := initial_session; resources := ∅; objects := 0;
        calls := 0 + 3;
        log := [] ++
          [GenerateContent Sample.handle
             (build_messages (build_prompt "alpha" "Why?") [("Who?", "Nobody.")]);
           StWarning "⏳ Rate limit hit. Waiting 15s before retry 1/2...";
           Sleep 15;
           GenerateContent Sample.handle
             (build_messages (build_prompt "alpha" "Why?") [("Who?", "Nobody.")]);
           StWarning "⏳ Rate limit hit. Waiting 15s before retry 2/2...";
           Sleep 15;
           GenerateContent Sample.handle
             (build_messages (build_prompt "alpha" "Why?") [("Who?", "Nobody.")])] |}).
Proof.
  apply (ask_question_rate_limited Sample.limited Sample.handle "Why?" "alpha"
           [("Who?", "Nobody.")] initial_world).
  intros k _. eexists. split; reflexivity.
Defined.

Lemma ask_question_unexpected_error_witness :
  is_rate_limit "503 Service Unavailable" = false
  ∧ run (ask_question Sample.down Sample.handle "Why?" "alpha" []) initial_world
    = (Some "❌ Unexpected error: 503 Service Unavailable",
       {| session := initial_session; resources := ∅; objects := 0;
          calls := 0 + 1;
          log := [] ++ [GenerateContent Sample.handle
                          (build_messages (build_prompt "alpha" "Why?") [])] |}).
Proof.
  split; [reflexivity|].
  apply (ask_question_unexpected_error Sample.down Sample.handle "Why?" "alpha"
           [] initial_world "503 Service Unavailable"); reflexivity.
Defined.

Lemma extract_text_from_pdf_document_witness :
  run (extract_text_from_pdf Sample.reader Sample.notes) initial_world
  = (nl +:+ "--- Page 1 ---" +:+ nl +:+ "alpha" +:+
     nl +:+ "--- Page 4 ---" +:+ nl +:+ "beta",
     {| session := initial_session; resources := ∅; objects := 0; calls := 0;
        log := [ReadPdf Sample.notes] |}).
Proof.
  apply (extract_text_from_pdf_document Sample.reader Sample.notes
           [Some "alpha"; None; Some ""; Some "beta"] initial_world).
  reflexivity.
Defined.

Lemma error_turn_is_stored_witness :
  chat_history
    (session (run (main Sample.reader Sample.down Sample.ask_why)
                Sample.notes_loaded).2)
  = Some ([] ++ [("Why?", "❌ Unexpected error: 503 Service Unavailable")])
  ∧ ∀ later_document later_question,
      build_messages (build_prompt later_document later_question)
        ([] ++ [("Why?", "❌ Unexpected error: 503 Service Unavailable")])
      = history []
        ++ [user "Why?"; model "❌ Unexpected error: 503 Service Unavailable";
            user (build_prompt later_document later_question)].
Proof.
  apply (error_turn_is_stored Sample.reader Sample.down Sample.ask_why
           Sample.notes_loaded
           (nl +:+ "--- Page 1 ---" +:+ nl +:+ "alpha" +:+
            nl +:+ "--- Page 4 ---" +:+ nl +:+ "beta")
           "Why?" "❌ Unexpected error: 503 Service Unavailable" []);
    reflexivity.
Defined.

Lemma new_document_resets_history_witness :
  length (default [] (chat_history (session Sample.one_turn))) = 1
  ∧ is_new_file (session Sample.one_turn) Sample.slides = true
  ∧ session
      (run (main Sample.reader Sample.down Sample.upload_slides)
         Sample.one_turn).2
    = {| document_text := Some (nl +:+ "--- Page 1 ---" +:+ nl +:+ "gamma");
         last_file := Some "slides.pdf";
         chat_history := Some [] |}.
Proof.
  split; [reflexivity|]. split; [reflexivity|].
  apply (new_document_resets_history Sample.reader Sample.down
           Sample.upload_slides Sample.slides
           (nl +:+ "--- Page 1 ---" +:+ nl +:+ "gamma") Sample.one_turn);
    [reflexivity | reflexivity | reflexivity | reflexivity | discriminate].
Defined.

Lemma unreadable_pdf_is_not_stored_witness :
  read_pages Sample.reader Sample.broken = raises "EOF marker not found"
  ∧ (run (extract_text_from_pdf Sample.reader Sample.broken) Sample.notes_loaded).1
    = ""
  ∧ session (run (process_upload Sample.reader (Some Sample.broken))
               Sample.notes_loaded).2
    = session Sample.notes_loaded.
Proof.
  split; [reflexivity|].
  destruct (unreadable_pdf_is_not_stored Sample.reader Sample.down
              {| api_key := "key"; uploaded := Some Sample.broken;
                 clear_clicked := false; user_question := None |}
              Sample.broken "EOF marker not found" Sample.notes_loaded)
    as (Hex & Hs & _); [reflexivity | reflexivity |].
  split; [by rewrite Hex | exact Hs].
Defined.

Lemma same_name_upload_is_ignored_witness :
  last_file (session Sample.notes_loaded) = Some (name Sample.renamed)
  ∧ content Sample.renamed ≠ content Sample.notes
  ∧ run (process_upload Sample.reader (Some Sample.renamed)) Sample.notes_loaded
    = (tt, Sample.notes_loaded).
Proof.
  split; [reflexivity|]. split; [discriminate|].
  apply (same_name_upload_is_ignored Sample.reader Sample.down
           {| api_key := "key"; uploaded := Some Sample.renamed;
              clear_clicked := false; user_question := None |}
           Sample.renamed Sample.notes_loaded).
  - apply reachable_run, reachable_initial.
  - reflexivity.
  - reflexivity.
Defined.

(** ** The Python helpers on examples *)

Example format_thousands_examples :
  format_thousands 0 = "0" ∧ format_thousands 999 = "999"
  ∧ format_thousands 1000 = "1,000" ∧ format_thousands 41 = "41"
  ∧ format_thousands (1234 * 1000 + 567) = "1,234,567".
Proof. repeat split; reflexivity. Qed.

Example len_counts_code_points : len "❌ ab" = 4 ∧ len "" = 0.
Proof. split; reflexivity. Qed.

Example is_rate_limit_examples :
  is_rate_limit "429 Too Many Requests" = true
  ∧ is_rate_limit "Resource QUOTA exceeded" = true
  ∧ is_rate_limit "Quota" = true
  ∧ is_rate_limit "503 Service Unavailable" = false
  ∧ is_rate_limit "" = false.
Proof. repeat split; reflexivity. Qed.

Example page_marker_example : page_marker 0 = nl +:+ "--- Page 1 ---" +:+ nl.
Proof. reflexivity. Qed.

Example range_attempts : range 1 (MAX_RETRIES + 1) = [1; 2; 3].
Proof. reflexivity. Qed.

(** The order that the code does have is found by the search that finds no
    arrangement in the order of the claim. *)
Example in_order_b_sample :
  Prompt_spec.in_order_b
    [Prompt_spec.document_start; "D"; Prompt_spec.document_end;
     Prompt_spec.instruction; "Zebra"] (build_prompt "D" "Zebra") = true
  ∧ Prompt_spec.in_order_b
      [Prompt_spec.document_start; "D"; Prompt_spec.document_end;
       "Zebra"; Prompt_spec.instruction] (build_prompt "D" "Zebra") = false.
Proof. split; reflexivity. Qed.

(** * Further properties of the code *)

(** ** The retry loop, for every behaviour of the service *)

Section Retries.

Variable generate_content : nat → model_handle → list message → except string.

Lemma retried_fields m messages (first count : nat) (w : world) :
  session (retried m messages first count w) = session w
  ∧ resources (retried m messages first count w) = resources w
  ∧ objects (retried m messages first count w) = objects w
  ∧ calls (retried m messages first count w) = calls w + count
  ∧ log (retried m messages first count w)
    = log w ++ (seq first count ≫= rate_limited_attempt m messages).
Proof.
  revert first w. induction count as [|count IH]; intros first w.
  - simpl. rewrite app_nil_r, Nat.add_0_r. done.
  - cbn [retried]. destruct (IH (S first) (paused first (requested m messages w)))
      as (Hs & Hr & Ho & Hc & Hl).
    rewrite Hs, Hr, Ho, Hc, Hl. simpl.
    repeat split; [lia|]. by rewrite <- !app_assoc.
Qed.

Lemma retried_world m messages (first count : nat) (w : world) :
  retried m messages first count w
  = {| session := session w; resources := resources w; objects := objects w;
       calls := calls w + count;
       log := log w ++ (seq first count ≫= rate_limited_attempt m messages) |}.
Proof.
  destruct (retried_fields m messages first count w) as (Hs & Hr & Ho & Hc & Hl).
  destruct (retried m messages first count w). simpl in *. by subst.
Qed.

(** As long as the attempts are rate limited and are not the last one, the
    loop goes on. *)
Lemma retry_loop_rate_limited_prefix m messages (count first : nat)
    (rest : list nat) (w : world) :
  first + count ≤ MAX_RETRIES →
  (∀ i, i < count →
     ∃ e, generate_content (calls w + i) m messages = raises e
          ∧ is_rate_limit e = true) →
  retry_loop generate_content m messages (seq first count ++ rest) w
  = retry_loop generate_content m messages rest (retried m messages first count w).
Proof.
  revert first w. induction count as [|count IH]; intros first w Hle H; [done|].
  cbn [seq app retried]. rewrite retry_loop_cons.
  destruct (H 0) as (e & He & Hrl); [lia|].
  rewrite Nat.add_0_r in He. rewrite He, Hrl.
  replace (first <? MAX_RETRIES) with true
    by (symmetry; apply Nat.ltb_lt; lia).
  apply IH; [lia|]. intros i Hi. simpl.
  destruct (H (S i)) as (e' & He' & Hrl'); [lia|].
  exists e'. split; [|done]. rewrite <- He'. f_equal. lia.
Qed.

Lemma slept_rate_limited_attempts m messages (first count : nat) :
  slept (seq first count ≫= rate_limited_attempt m messages)
  = RETRY_DELAY_SECONDS * count.
Proof.
  revert first. induction count as [|count IH]; intros first; [done|].
  cbn [seq]. rewrite bind_cons. unfold slept in *. rewrite omap_app, sum_list_with_app.
  rewrite IH. simpl. lia.
Qed.

(** With [retries] rate-limited attempts behind it, the loop is at the
    attempt numbered [first + retries]. *)
Lemma retry_loop_after_retries m messages (first count retries : nat) (w : world) :
  first + count = MAX_RETRIES →
  retries ≤ count →
  (∀ i, i < retries →
     ∃ e, generate_content (calls w + i) m messages = raises e
          ∧ is_rate_limit e = true) →
  retry_loop generate_content m messages (seq first (S count)) w
  = retry_loop generate_content m messages
      (first + retries :: seq (S (first + retries)) (count - retries))
      (retried m messages first retries w).
Proof.
  intros Hsum Hle H.
  replace (S count) with (retries + S (count - retries)) by lia.
  rewrite seq_app. cbn [seq].
  apply retry_loop_rate_limited_prefix; [lia | exact H].
Qed.

(** X1.  If the first [retries] requests (fewer than [MAX_RETRIES]) fail
    with the rate-limit signature and the next one succeeds, [ask_question]
    returns the generated text as it is, after [retries + 1] requests, each
    failed one followed by its warning and a pause of 15 seconds. *)
Theorem ask_question_recovers (m : model_handle)
    (question document_text : string) (turns : list turn) (w : world)
    (retries : nat) (text : string) :
  let messages := build_messages (build_prompt document_text question) turns in
  retries < MAX_RETRIES →
  (∀ i, i < retries →
     ∃ e, generate_content (calls w + i) m messages = raises e
          ∧ is_rate_limit e = true) →
  generate_content (calls w + retries) m messages = value text →
  run (ask_question generate_content m question document_text turns) w
  = (Some text,
     {| session := session w; resources := resources w; objects := objects w;
        calls := calls w + retries + 1;
        log := log w ++ (seq 1 retries ≫= rate_limited_attempt m messages)
                 ++ [GenerateContent m messages] |}).
Proof.
  intros messages Hlt H Hok. unfold run, ask_question. fold messages.
  change (range 1 (MAX_RETRIES + 1)) with (seq 1 (S 2)).
  rewrite (retry_loop_after_retries m messages 1 2 retries w)
    by (done || (unfold MAX_RETRIES in Hlt; lia)).
  rewrite retry_loop_cons, retried_world. cbn [calls].
  rewrite Hok. unfold requested. simpl. do 2 f_equal; [lia|].
  by rewrite <- app_assoc.
Qed.

(** X2.  If the first [retries] requests (fewer than [MAX_RETRIES]) fail
    with the rate-limit signature and the next one fails otherwise,
    [ask_question] gives up at once: it returns the unexpected-error message
    with the text of that last error, after [retries + 1] requests. *)
Theorem ask_question_gives_up (m : model_handle)
    (question document_text : string) (turns : list turn) (w : world)
    (retries : nat) (e : string) :
  let messages := build_messages (build_prompt document_text question) turns in
  retries < MAX_RETRIES →
  (∀ i, i < retries →
     ∃ e', generate_content (calls w + i) m messages = raises e'
           ∧ is_rate_limit e' = true) →
  generate_content (calls w + retries) m messages = raises e →
  is_rate_limit e = false →
  run (ask_question generate_content m question document_text turns) w
  = (Some ("❌ Unexpected error: " +:+ e),
     {| session := session w; resources := resources w; objects := objects w;
        calls := calls w + retries + 1;
        log := log w ++ (seq 1 retries ≫= rate_limited_attempt m messages)
                 ++ [GenerateContent m messages] |}).
Proof.
  intros messages Hlt H He Hrl. unfold run, ask_question. fold messages.
  change (range 1 (MAX_RETRIES + 1)) with (seq 1 (S 2)).
  rewrite (retry_loop_after_retries m messages 1 2 retries w)
    by (done || (unfold MAX_RETRIES in Hlt; lia)).
  rewrite retry_loop_cons, retried_world. cbn [calls].
  rewrite He, Hrl. unfold requested, unexpected_error. simpl.
  do 2 f_equal; [lia|]. by rewrite <- app_assoc.
Qed.

(** The loop, whatever the service does. *)
Lemma retry_loop_course m messages (count first : nat) (w : world) :
  first + count = MAX_RETRIES →
  ∃ retries answer,
    retries ≤ count
    ∧ (∀ i, i < retries →
         ∃ e, generate_content (calls w + i) m messages = raises e
              ∧ is_rate_limit e = true)
    ∧ retry_loop generate_content m messages (seq first (S count)) w
      = (Some answer, requested m messages (retried m messages first retries w))
    ∧ match generate_content (calls w + retries) m messages with
      | value text => answer = text
      | raises e =>
          if is_rate_limit e
          then retries = count ∧ answer = rate_limit_exceeded
          else answer = unexpected_error e
      end.
Proof.
  revert first w. induction count as [|count IH]; intros first w Hsum.
  - exists 0. cbn [seq retried]. rewrite retry_loop_cons, Nat.add_0_r.
    destruct (generate_content (calls w) m messages) as [text|e].
    { exists text. repeat split; try done. intros i Hi. lia. }
    destruct (is_rate_limit e).
    + replace (first <? MAX_RETRIES) with false
        by (symmetry; apply Nat.ltb_ge; lia).
      exists rate_limit_exceeded. repeat split; try done. intros i Hi. lia.
    + exists (unexpected_error e). repeat split; try done. intros i Hi. lia.
  - cbn [seq]. rewrite retry_loop_cons.
    destruct (generate_content (calls w) m messages) as [text|e] eqn:He.
    { exists 0, text. cbn [retried]. rewrite Nat.add_0_r, He.
      repeat split; try done; [lia | intros i Hi; lia]. }
    destruct (is_rate_limit e) eqn:Hrl.
    + replace (first <? MAX_RETRIES) with true
        by (symmetry; apply Nat.ltb_lt; lia).
      destruct (IH (S first) (paused first (requested m messages w)))
        as (retries & answer & Hle & Hfail & Hrun & Hend); [lia|].
      exists (S retries), answer. cbn [retried].
      split; [lia|]. split; [|split].
      * intros [|i] Hi.
        -- exists e. by rewrite Nat.add_0_r.
        -- destruct (Hfail i) as (e' & He' & Hrl'); [lia|].
           exists e'. split; [|done]. rewrite <- He'. simpl. f_equal. lia.
      * exact Hrun.
      * simpl in Hend.
        replace (calls w + S retries) with (S (calls w + retries)) by lia.
        destruct (generate_content (S (calls w + retries)) m messages);
          [done|].
        destruct (is_rate_limit e0); [|done].
        destruct Hend as [-> ->]. done.
    + exists 0, (unexpected_error e). cbn [retried].
      rewrite Nat.add_0_r, He, Hrl.
      repeat split; try done; [lia | intros i Hi; lia].
Qed.

(** X3.  Whatever the service does, a call of [ask_question] has this
    course: some number [retries] below [MAX_RETRIES] of requests fail with
    the rate-limit signature, each followed by its warning and a pause of 15
    seconds, and one more request ends the call.  That last request decides
    the result: its text as it is; or, if it fails without the signature,
    the unexpected-error message; or, if it fails with the signature, which
    can only be the third request, the fixed message about the exhausted
    retries.  The call never returns [None], sleeps 15 seconds per retry and
    so at most 30 seconds, and touches neither the session state nor the
    cache. *)
Theorem ask_question_course (m : model_handle)
    (question document_text : string) (turns : list turn) (w : world) :
  let messages := build_messages (build_prompt document_text question) turns in
  let result := run (ask_question generate_content m question document_text turns) w in
  ∃ retries answer,
    retries < MAX_RETRIES
    ∧ (∀ i, i < retries →
         ∃ e, generate_content (calls w + i) m messages = raises e
              ∧ is_rate_limit e = true)
    ∧ result
      = (Some answer,
         {| session := session w; resources := resources w;
            objects := objects w; calls := calls w + retries + 1;
            log := log w ++ (seq 1 retries ≫= rate_limited_attempt m messages)
                     ++ [GenerateContent m messages] |})
    ∧ match generate_content (calls w + retries) m messages with
      | value text => answer = text
      | raises e =>
          if is_rate_limit e
          then retries = MAX_RETRIES - 1 ∧ answer = rate_limit_exceeded
          else answer = unexpected_error e
      end
    ∧ slept (log result.2) = slept (log w) + RETRY_DELAY_SECONDS * retries
    ∧ slept (log result.2) ≤ slept (log w) + 30.
Proof.
  intros messages result.
  destruct (retry_loop_course m messages 2 1 w)
    as (retries & answer & Hle & Hfail & Hrun & Hend); [done|].
  assert (Hresult : result
    = (Some answer,
       {| session := session w; resources := resources w;
          objects := objects w; calls := calls w + retries + 1;
          log := log w ++ (seq 1 retries ≫= rate_limited_attempt m messages)
                   ++ [GenerateContent m messages] |})).
  { unfold result, run, ask_question. fold messages.
    change (range 1 (MAX_RETRIES + 1)) with (seq 1 (S 2)).
    rewrite Hrun, retried_world. unfold requested. simpl.
    do 2 f_equal; [lia|]. by rewrite <- app_assoc. }
  assert (Hslept : slept (log result.2)
                   = slept (log w) + RETRY_DELAY_SECONDS * retries).
  { rewrite Hresult. cbn [snd log]. unfold slept.
    rewrite !omap_app, !sum_list_with_app.
    fold (slept (seq 1 retries ≫= rate_limited_attempt m messages)).
    rewrite slept_rate_limited_attempts. simpl. lia. }
  exists retries, answer.
  split; [unfold MAX_RETRIES; lia|]. split; [exact Hfail|].
  split; [exact Hresult|]. split; [exact Hend|].
  split; [exact Hslept|].
  rewrite Hslept. unfold RETRY_DELAY_SECONDS. lia.
Qed.

End Retries.

(** ** The test for the rate-limit signature *)

Lemma contains_unfold (sub s : string) :
  contains sub s
  = String.prefix sub s
    || match s with
       | EmptyString => false
       | String _ s' => contains sub s'
       end.
Proof. by destruct s. Qed.

Lemma contains_anywhere (sub before after : string) :
  contains sub (before +:+ sub +:+ after) = true.
Proof.
  induction before as [|c before IH].
  - rewrite append_nil, contains_unfold, prefix_append. done.
  - rewrite append_cons, contains_unfold, IH. apply orb_true_r.
Qed.

Lemma lower_append (a b : string) : lower (a +:+ b) = lower a +:+ lower b.
Proof.
  induction a as [|c a IH]; [done|].
  rewrite append_cons. simpl. by rewrite IH, append_cons.
Qed.

(** X4.  The test is a search for a substring: an error text that has 429
    anywhere in it, be it inside a longer number or word, or that has the
    letters of quota anywhere in it, in any mix of upper and lower case,
    bears the rate-limit signature. *)
Theorem is_rate_limit_anywhere (before found after : string) :
  found = "429" ∨ lower found = "quota" →
  is_rate_limit (before +:+ found +:+ after) = true.
Proof.
  intros [->|Hq]; unfold is_rate_limit.
  - by rewrite contains_anywhere.
  - rewrite !lower_append, Hq, contains_anywhere. apply orb_true_r.
Qed.

Lemma is_rate_limit_anywhere_witness :
  is_rate_limit ("Invalid token at offset 1" +:+ "429" +:+ "7") = true
  ∧ is_rate_limit ("Daily " +:+ "QuOtA" +:+ " used up") = true.
Proof.
  split.
  - apply (is_rate_limit_anywhere "Invalid token at offset 1" "429" "7").
    left. reflexivity.
  - apply (is_rate_limit_anywhere "Daily " "QuOtA" " used up").
    right. reflexivity.
Defined.

(** ** The delimiters of the prompt *)

Lemma length_append (a b : string) :
  String.length (a +:+ b) = String.length a + String.length b.
Proof.
  induction a as [|c a IH]; [done|].
  rewrite append_cons. simpl. by rewrite IH.
Qed.

Lemma build_prompt_parts (document_text question : string) :
  build_prompt document_text question
  = prompt_head +:+ document_text +:+ prompt_middle +:+ question +:+ nl.
Proof. reflexivity. Qed.

(** X5.  The document text and the question are inserted as they are, with
    no escaping of the delimiters, so the prompt does not determine them: a
    question that contains the text that separates document and question
    gives the very prompt of another document with another question. *)
Theorem build_prompt_not_injective (x y z : string) :
  build_prompt x (y +:+ prompt_middle +:+ z)
  = build_prompt (x +:+ prompt_middle +:+ y) z
  ∧ x ≠ x +:+ prompt_middle +:+ y.
Proof.
  split.
  - rewrite !build_prompt_parts. by rewrite !append_assoc.
  - intros H. apply (f_equal String.length) in H.
    rewrite !length_append in H.
    assert (0 < String.length prompt_middle) by (vm_compute; lia). lia.
Qed.

(** ** The loop over the pages *)

Section Pages.

Variable PdfReader : uploaded_file → except (list page).

Lemma enumerate_from_app {A : Type} (first : nat) (l1 l2 : list A) :
  enumerate_from first (l1 ++ l2)
  = enumerate_from first l1 ++ enumerate_from (first + length l1) l2.
Proof.
  revert first. induction l1 as [|x l1 IH]; intros first; simpl.
  - by rewrite Nat.add_0_r.
  - rewrite IH. do 3 f_equal. lia.
Qed.

(** The loop over a list of pages followed by another. *)
Lemma extract_pages_app (l1 l2 : list (nat * page)) (acc : string) :
  extract_pages (l1 ++ l2) acc
  = match extract_pages l1 acc with
    | value text => extract_pages l2 text
    | raises e => raises e
    end.
Proof.
  revert acc. induction l1 as [|[n pg] l1 IH]; intros acc; [done|].
  simpl. destruct pg as [[text|]|e]; [destruct (truthy text)| |]; try apply IH.
  done.
Qed.

(** When no page raises, the loop returns, and what it returns starts with
    what it was given. *)
Lemma extract_pages_returns (pages : list (option string)) (first : nat)
    (acc : string) :
  ∃ more,
    extract_pages (enumerate_from first (value <$> pages)) acc = value (acc +:+ more)
    ∧ ∀ acc', extract_pages (enumerate_from first (value <$> pages)) acc'
              = value (acc' +:+ more).
Proof.
  revert first acc. induction pages as [|pg pages IH]; intros first acc.
  - exists "". split; [|intros acc']; simpl; by rewrite append_empty_r.
  - destruct pg as [text|]; simpl; [destruct (truthy text)|].
    + destruct (IH (S first) "") as (more & _ & Hmore).
      exists (page_marker first +:+ text +:+ more).
      split; [|intros acc']; rewrite Hmore; by rewrite !append_assoc.
    + destruct (IH (S first) acc) as (more & _ & Hmore).
      exists more. split; [|intros acc']; apply Hmore.
    + destruct (IH (S first) acc) as (more & _ & Hmore).
      exists more. split; [|intros acc']; apply Hmore.
Qed.

Lemma append_not_empty_l (a b : string) : a ≠ "" → a +:+ b ≠ "".
Proof. destruct a; [done|]. by rewrite append_cons. Qed.

Lemma append_not_empty_r (a b : string) : b ≠ "" → a +:+ b ≠ "".
Proof. destruct a; [by rewrite append_nil|]. by rewrite append_cons. Qed.

Lemma page_marker_not_empty (n : nat) : page_marker n ≠ "".
Proof. unfold page_marker. apply append_not_empty_l. done. Qed.

(** X6.  When no page raises, the text that [extract_text_from_pdf] returns
    is empty exactly when the PDF has no page with text (a PDF without pages
    included); in that case nothing is displayed by the function itself. *)
Theorem extract_text_from_pdf_empty_iff_blank (file : uploaded_file)
    (pages : list (option string)) (w : world) :
  PdfReader file = value (value <$> pages) →
  ((run (extract_text_from_pdf PdfReader file) w).1 = ""
   ↔ Forall (λ pg, has_text pg = false) pages)
  ∧ log (run (extract_text_from_pdf PdfReader file) w).2 = log w ++ [ReadPdf file].
Proof.
  intros Hr. unfold run.
  assert (Hv : ∃ text, read_pages PdfReader file = value text
                       ∧ (text = "" ↔ Forall (λ pg, has_text pg = false) pages)).
  { unfold read_pages, enumerate. rewrite Hr. clear Hr. generalize 0 as first.
    induction pages as [|pg pages IH]; intros first.
    - exists "". split; [done|]. split; [by constructor|done].
    - destruct (has_text pg) eqn:Hpg.
      + destruct pg as [text|]; [|done]. simpl in Hpg. simpl. rewrite Hpg.
        destruct (extract_pages_returns pages (S first)
                    (("" +:+ page_marker first) +:+ text)) as (more & Hmore & _).
        eexists. split; [exact Hmore|]. split.
        * intros H. exfalso. revert H.
          apply append_not_empty_l, append_not_empty_l, append_not_empty_r,
            page_marker_not_empty.
        * intros H. inversion H as [|? ? Hpg']. simpl in Hpg'. congruence.
      + destruct (IH (S first)) as (text & Ht & Hiff).
        exists text. split.
        * simpl. destruct pg as [t|]; [|exact Ht].
          simpl in Hpg. rewrite Hpg. exact Ht.
        * rewrite Hiff. split; [by constructor|].
          intros H. by inversion H. }
  destruct Hv as (text & Ht & Hiff).
  rewrite (extract_text_from_pdf_value PdfReader file text w Ht). simpl.
  split; [exact Hiff | done].
Qed.

(** X7.  A page's marker carries the position of the page in the PDF: the
    pages without text are left out of the result but are counted.  When no
    page raises, the text of a page that has text comes in the result right
    after the marker with the number of pages before it plus one, and that
    marker comes right after what the pages before it give on their own. *)
Theorem extract_text_from_pdf_numbers_by_position (file : uploaded_file)
    (before after : list (option string)) (text : string) (w : world) :
  PdfReader file = value (value <$> (before ++ Some text :: after)) →
  text ≠ "" →
  ∃ head tail,
    extract_pages (enumerate (value <$> before)) "" = value head
    ∧ (run (extract_text_from_pdf PdfReader file) w).1
      = head +:+ nl +:+ "--- Page " +:+ str (length before + 1) +:+ " ---"
          +:+ nl +:+ text +:+ tail.
Proof.
  intros Hr Htext. apply truthy_true in Htext. unfold run.
  destruct (extract_pages_returns before 0 "") as (head & Hhead & _).
  rewrite append_nil in Hhead.
  destruct (extract_pages_returns after (S (length before))
              ((head +:+ page_marker (length before)) +:+ text))
    as (tail & Htail & _).
  exists head, tail. split; [exact Hhead|].
  rewrite (extract_text_from_pdf_value PdfReader file
             (((head +:+ page_marker (length before)) +:+ text) +:+ tail) w).
  - simpl. unfold page_marker. by rewrite !append_assoc.
  - unfold read_pages, enumerate. rewrite Hr, fmap_app, enumerate_from_app.
    rewrite extract_pages_app, Hhead. rewrite length_fmap. simpl.
    rewrite Htext. exact Htail.
Qed.

(** X8.  When a page raises, the text gathered from the pages before it is
    thrown away and the pages after it are not looked at: the function
    displays the error of that page and returns the empty string. *)
Theorem extract_text_from_pdf_first_failure (file : uploaded_file)
    (before : list (option string)) (after : list page) (e : string)
    (w : world) :
  PdfReader file = value ((value <$> before) ++ raises e :: after) →
  run (extract_text_from_pdf PdfReader file) w
  = ("",
     {| session := session w; resources := resources w; objects := objects w;
        calls := calls w;
        log := (log w ++ [ReadPdf file])
                 ++ [StError ("❌ Failed to read PDF: " +:+ e)] |}).
Proof.
  intros Hr. apply extract_text_from_pdf_raises.
  by apply (read_pages_raises_page PdfReader file before after e).
Qed.

End Pages.

Lemma extract_text_from_pdf_empty_iff_blank_witness :
  (run (extract_text_from_pdf Sample_files.reader Sample_files.scan)
     initial_world).1 = ""
  ∧ (run (extract_text_from_pdf Sample_files.reader Sample_files.cover)
       initial_world).1 ≠ "".
Proof.
  split.
  - apply (extract_text_from_pdf_empty_iff_blank Sample_files.reader
             Sample_files.scan [None; Some ""] initial_world);
      [reflexivity|].
    repeat constructor.
  - intros H.
    apply (extract_text_from_pdf_empty_iff_blank Sample_files.reader
             Sample_files.cover [None; Some "two"] initial_world) in H;
      [|reflexivity].
    inversion H as [|? ? _ H']. inversion H' as [|? ? Hpg _]. discriminate Hpg.
Defined.

Lemma extract_text_from_pdf_numbers_by_position_witness :
  ∃ head tail,
    extract_pages (enumerate (value <$> [None])) "" = value head
    ∧ (run (extract_text_from_pdf Sample_files.reader Sample_files.cover)
         initial_world).1
      = head +:+ nl +:+ "--- Page " +:+ str (length [@None string] + 1) +:+ " ---"
          +:+ nl +:+ "two" +:+ tail.
Proof.
  apply (extract_text_from_pdf_numbers_by_position Sample_files.reader
           Sample_files.cover [None] [] "two" initial_world);
    [reflexivity | discriminate].
Defined.

Lemma extract_text_from_pdf_first_failure_witness :
  run (extract_text_from_pdf Sample_files.reader Sample_files.torn) initial_world
  = ("",
     {| session := initial_session; resources := ∅; objects := 0; calls := 0;
        log := ([] ++ [ReadPdf Sample_files.torn])
                 ++ [StError ("❌ Failed to read PDF: " +:+ "bad stream")] |}).
Proof.
  apply (extract_text_from_pdf_first_failure Sample_files.reader
           Sample_files.torn [Some "one"] [raises "later"] "bad stream"
           initial_world).
  reflexivity.
Defined.

(** ** The script and the model *)

Lemma configured_snoc (l : list event) (e : event) :
  configure_of e = None → configured (l ++ [e]) = configured l.
Proof.
  intros H. unfold configured. rewrite omap_app. simpl. rewrite H.
  apply app_nil_r.
Qed.

Lemma emit_cache_view (e : event) :
  configure_of e = None → keeps (same cache_view) (emit e).
Proof.
  intros H [s r o c l]. unfold same, cache_view. simpl.
  by rewrite (configured_snoc l e H).
Qed.

Lemma put_session_cache_view (s : session_state) :
  keeps (same cache_view) (put_session s).
Proof. by intros []. Qed.

#[export] Hint Resolve emit_cache_view put_session_cache_view : keeps.

Lemma modify_session_cache_view (f : session_state → session_state) :
  keeps (same cache_view) (modify_session f).
Proof. unfold modify_session. keeps_auto. Qed.

#[export] Hint Resolve modify_session_cache_view : keeps.

Lemma display_history_cache_view (turns : list turn) :
  keeps (same cache_view) (display_history turns).
Proof. induction turns as [|[q a] turns IH]; simpl; keeps_auto. Qed.

Lemma display_history_same {X : Type} (f : world → X) (turns : list turn) :
  (∀ e, keeps (same f) (emit e)) → keeps (same f) (display_history turns).
Proof. intros H. apply display_history_keeps; [apply _ | exact H]. Qed.

#[export] Hint Resolve display_history_cache_view : keeps.

Section Script_and_model.

Variable PdfReader : uploaded_file → except (list page).
Variable generate_content : nat → model_handle → list message → except string.

Lemma extract_text_from_pdf_cache_view (file : uploaded_file) :
  keeps (same cache_view) (extract_text_from_pdf PdfReader file).
Proof. unfold extract_text_from_pdf. keeps_auto. Qed.

Hint Resolve extract_text_from_pdf_cache_view extract_text_from_pdf_calls
  extract_text_from_pdf_resources extract_text_from_pdf_objects : keeps.

Lemma process_upload_cache_view (upload : option uploaded_file) :
  keeps (same cache_view) (process_upload PdfReader upload).
Proof. unfold process_upload. keeps_auto. Qed.

Lemma process_upload_calls (upload : option uploaded_file) :
  keeps (same calls) (process_upload PdfReader upload).
Proof. unfold process_upload. keeps_auto. Qed.

(** X9.  When the clear button is clicked, the run ends right after the
    upload block with [st.rerun()]: the history is set to the empty list,
    the stored text and file name stay as the upload block left them, and
    nothing else happens, even when a question is submitted in the same run:
    no request is sent, nothing is configured, and the question is neither
    displayed nor kept. *)
Theorem clear_button_empties_history (ui : widgets) (w : world) :
  clear_clicked ui = true →
  let w1 := (run (process_upload PdfReader (uploaded ui)) w).2 in
  run (main PdfReader generate_content ui) w
  = (tt,
     {| session := {| document_text := document_text (session w1);
                      last_file := last_file (session w1);
                      chat_history := Some [] |};
        resources := resources w; objects := objects w; calls := calls w;
        log := log w1 ++ [Rerun] |}).
Proof.
  intros Hclear w1. unfold run, main. rewrite bind_run.
  unfold from_clear_button. rewrite Hclear.
  pose proof (process_upload_cache_view (uploaded ui) w) as Hv.
  pose proof (process_upload_calls (uploaded ui) w) as Hc.
  unfold same, cache_view in Hv, Hc. fold (run (process_upload PdfReader (uploaded ui)) w) in *.
  fold w1 in Hv, Hc |- *.
  injection Hv as Hr Ho _.
  destruct w1 as [s1 r1 o1 c1 l1]. simpl in *. by subst.
Qed.

Lemma from_clear_button_leaves_model (ui : widgets) (w : world) :
  clear_clicked ui = true
  ∨ document_text (session w) = None
  ∨ truthy (api_key ui) = false
  ∨ user_question ui = None
  ∨ user_question ui = Some "" →
  calls (from_clear_button generate_content ui w).2 = calls w
  ∧ cache_view (from_clear_button generate_content ui w).2 = cache_view w.
Proof.
  intros H. unfold from_clear_button.
  destruct (clear_clicked ui) eqn:Hclear.
  { split; [apply (keeps_same_eq calls) | apply (keeps_same_eq cache_view)];
      keeps_auto. }
  destruct w as [[d f h] r o c l]. simpl in H.
  assert (Hidle : d = None ∨ truthy (api_key ui) = false
                  ∨ user_question ui = None ∨ user_question ui = Some "").
  { destruct H as [H|H]; [discriminate H | exact H]. }
  clear H.
  assert (Hshow : ∀ (w0 : world) (turns : list turn),
    calls (display_history turns w0).2 = calls w0
    ∧ cache_view (display_history turns w0).2 = cache_view w0).
  { intros w0 turns. split.
    - apply (keeps_same_eq calls), display_history_same. auto with keeps.
    - apply (keeps_same_eq cache_view). auto with keeps. }
  assert (Hinfo : cache_view (World (SessionState d f h) r o c (l ++ [StInfo how_rag_works]))
                  = cache_view (World (SessionState d f h) r o c l)).
  { unfold cache_view. simpl. by rewrite configured_snoc. }
  destruct d as [text|].
  - destruct (truthy (api_key ui)) eqn:Hkey.
    + assert (Hq : (match user_question ui with
                    | Some question =>
                        if truthy question
                        then answer_question generate_content (api_key ui)
                               question text
                        else ret ()
                    | None => ret ()
                    end) = ret ()).
      { destruct Hidle as [Hd|[Hk|[->| ->]]]; done. }
      destruct h as [turns|]; simpl; repeat (rewrite bind_run; simpl);
        rewrite Hq; simpl.
      * destruct (Hshow (World (SessionState (Some text) f (Some turns)) r o c
                           (l ++ [StInfo how_rag_works])) turns) as [-> ->].
        split; [done | exact Hinfo].
      * split; [done|]. unfold cache_view. simpl. by rewrite configured_snoc.
    + destruct h as [turns|]; simpl; repeat (rewrite bind_run; simpl);
        (split; [done|]); unfold cache_view; simpl; by rewrite !configured_snoc.
  - destruct h as [turns|]; simpl; repeat (rewrite bind_run; simpl);
      (split; [done|]); unfold cache_view; simpl; by rewrite !configured_snoc.
Qed.

(** X10.  The model is left alone unless the clear button is not clicked, a
    document is stored once the upload block is done, a key is typed and a
    question that is not empty is submitted: in every other run no request
    is sent, [genai.configure] is not called, and the cache of handles is
    as before. *)
Theorem model_is_left_alone (ui : widgets) (w : world) :
  clear_clicked ui = true
  ∨ document_text (session (run (process_upload PdfReader (uploaded ui)) w).2) = None
  ∨ truthy (api_key ui) = false
  ∨ user_question ui = None
  ∨ user_question ui = Some "" →
  calls (run (main PdfReader generate_content ui) w).2 = calls w
  ∧ resources (run (main PdfReader generate_content ui) w).2 = resources w
  ∧ objects (run (main PdfReader generate_content ui) w).2 = objects w
  ∧ configured (log (run (main PdfReader generate_content ui) w).2)
    = configured (log w).
Proof.
  intros H. unfold run in *. unfold main. rewrite bind_run.
  destruct (from_clear_button_leaves_model ui
              (process_upload PdfReader (uploaded ui) w).2 H) as [Hc Hv].
  rewrite (keeps_same_eq calls (process_upload PdfReader (uploaded ui)) w) in Hc
    by apply process_upload_calls.
  rewrite (keeps_same_eq cache_view (process_upload PdfReader (uploaded ui)) w)
    in Hv by apply process_upload_cache_view.
  unfold cache_view in Hv. injection Hv as Hr Ho Hl. done.
Qed.

(** *** The history after a run *)

Lemma answer_question_appends (key question text : string) (w : world) :
  ∃ answer,
    session (answer_question generate_content key question text w).2
    = append_turn (question, answer) (session w).
Proof.
  destruct (ask_question_returns generate_content (load_model key w).1
              question text (default [] (chat_history (session w))) w)
    as [answer Ha].
  exists answer. by apply answer_question_session.
Qed.

Lemma from_clear_button_history (ui : widgets) (w : world) :
  ∃ turns,
    session (from_clear_button generate_content ui w).2
    = set_chat_history turns (session w)
    ∧ (turns = []
       ∨ turns = default [] (chat_history (session w))
       ∨ ∃ question answer,
           user_question ui = Some question
           ∧ question ≠ ""
           ∧ is_Some (document_text (session w))
           ∧ turns = default [] (chat_history (session w)) ++ [(question, answer)]).
Proof.
  unfold from_clear_button.
  destruct (clear_clicked ui) eqn:Hclear.
  { exists []. split; [by destruct w | by left]. }
  destruct w as [[d f h] r o c l].
  destruct d as [text|];
    [|exists (default [] h); split; [by destruct h | by right; left]].
  destruct (truthy (api_key ui)) eqn:Hkey;
    [|exists (default [] h); split; [by destruct h | by right; left]].
  set (w1 := (display_history (default [] h)
                (World (SessionState (Some text) f (Some (default [] h))) r o c
                   (l ++ [StInfo how_rag_works]))).2).
  assert (Hs1 : session w1 = SessionState (Some text) f (Some (default [] h))).
  { unfold w1. rewrite (keeps_same_eq session); [done|].
    apply display_history_same. auto with keeps. }
  assert (Hidle : ∀ rest : action unit,
    rest = ret tt →
    ∃ turns,
      session
        (bind (emit (StInfo how_rag_works))
           (λ _, bind get_session
              (λ s, bind (if chat_history s is None
                          then modify_session (set_chat_history [])
                          else ret ())
                 (λ _, bind get_session
                    (λ s0, match document_text s0 with
                           | Some document_text =>
                               if negb true
                               then emit (StWarning
                                 "🔑 Please enter your Gemini API Key in the sidebar.")
                               else bind (display_history
                                            (default [] (chat_history s0)))
                                      (λ _, rest)
                           | None => emit (StInfo
                               "👈 Start by entering your API key and uploading a PDF in the sidebar.")
                           end))))
           (World (SessionState (Some text) f h) r o c l)).2
      = set_chat_history turns (session (World (SessionState (Some text) f h) r o c l))
      ∧ (turns = []
         ∨ turns = default [] (chat_history
                     (session (World (SessionState (Some text) f h) r o c l)))
         ∨ ∃ question answer,
             user_question ui = Some question
             ∧ question ≠ ""
             ∧ is_Some (document_text
                  (session (World (SessionState (Some text) f h) r o c l)))
             ∧ turns = default [] (chat_history
                         (session (World (SessionState (Some text) f h) r o c l)))
                         ++ [(question, answer)])).
  { intros rest ->. exists (default [] h). split; [|by right; left].
    transitivity (session w1); [|by rewrite Hs1].
    unfold w1. destruct h as [turns|]; simpl; repeat (rewrite bind_run; simpl);
      done. }
  destruct (user_question ui) as [question|] eqn:Hq; [|by apply Hidle].
  destruct (truthy question) eqn:Htq; [|by apply Hidle].
  destruct (answer_question_appends (api_key ui) question text w1)
    as [answer Ha].
  exists (default [] h ++ [(question, answer)]). split.
  - transitivity (session (answer_question generate_content (api_key ui)
                             question text w1).2).
    + unfold w1. destruct h as [turns|]; simpl;
        repeat (rewrite bind_run; simpl); done.
    + by rewrite Ha, Hs1.
  - right. right. exists question, answer.
    repeat split; [by apply truthy_true | by eexists].
Qed.

(** X11.  A run changes the session state in two places only: the upload
    block, and then the history, which at the end of every run is bound and
    is either empty, or what it was after the upload block, or that with one
    turn more, the turn of the question submitted in this run; a turn is
    only added when a document is stored. *)
Theorem main_history (ui : widgets) (w : world) :
  let w1 := (run (process_upload PdfReader (uploaded ui)) w).2 in
  let w' := (run (main PdfReader generate_content ui) w).2 in
  document_text (session w') = document_text (session w1)
  ∧ last_file (session w') = last_file (session w1)
  ∧ ∃ turns,
      chat_history (session w') = Some turns
      ∧ (turns = []
         ∨ chat_history (session w1) = Some turns
         ∨ ∃ question answer,
             user_question ui = Some question
             ∧ question ≠ ""
             ∧ is_Some (document_text (session w1))
             ∧ turns = default [] (chat_history (session w1))
                         ++ [(question, answer)]).
Proof.
  intros w1 w'.
  destruct (from_clear_button_history ui w1) as (turns & Hs & Hcases).
  assert (Hw' : session w' = set_chat_history turns (session w1)).
  { unfold w', run, main. rewrite bind_run. exact Hs. }
  rewrite Hw'. split; [done|]. split; [done|].
  exists turns. split; [done|].
  destruct Hcases as [->|[->|Hadd]]; [by left| |by right; right].
  destruct (chat_history (session w1)) as [old|]; [right; by left | by left].
Qed.

(** *** What holds throughout a session *)

Lemma process_upload_session (upload : option uploaded_file) (w : world) :
  session (process_upload PdfReader upload w).2 = session w
  ∨ ∃ file text,
      upload = Some file ∧ text ≠ ""
      ∧ session (process_upload PdfReader upload w).2
        = {| document_text := Some text; last_file := Some (name file);
             chat_history := Some [] |}.
Proof.
  destruct upload as [file|]; [|by left].
  destruct (is_new_file (session w) file) eqn:Hnew;
    [|left; by rewrite process_upload_skips].
  destruct (truthy (extract_text_from_pdf PdfReader file w).1) eqn:Ht.
  - right. exists file, (extract_text_from_pdf PdfReader file w).1.
    split; [done|]. split; [by apply truthy_true|].
    unfold process_upload, bind at 1, get_session. rewrite Hnew.
    unfold bind at 1.
    destruct (extract_text_from_pdf PdfReader file w) as [text w1].
    simpl in Ht. rewrite Ht. reflexivity.
  - left. rewrite process_upload_rejects; [done..|].
    destruct (extract_text_from_pdf PdfReader file w).1; [done|discriminate].
Qed.

Lemma main_session_invariant (ui : widgets) (w : world) :
  session_invariant (session w) →
  session_invariant (session (main PdfReader generate_content ui w).2).
Proof.
  intros Hinv. unfold main. rewrite bind_run.
  set (w1 := (process_upload PdfReader (uploaded ui) w).2).
  assert (Hinv1 : session_invariant (session w1)).
  { destruct (process_upload_session (uploaded ui) w)
      as [Hs|(file & text & _ & Htext & Hs)]; fold w1 in Hs; rewrite Hs;
      [exact Hinv|].
    repeat split; simpl; try (intros _; by eexists).
    - congruence.
    - intros turns _ _. by eexists. }
  destruct (from_clear_button_history ui w1) as (turns & -> & Hcases).
  destruct Hinv1 as (Hboth & Hhist & Htext & Hturns).
  repeat split; simpl; try apply Hboth; try done; try (intros _; by eexists).
  intros turns' Heq Hne. injection Heq as Heq. subst turns'.
  destruct Hcases as [->|[->|(q & a & _ & _ & Hdoc & _)]]; [done| |done].
  destruct (chat_history (session w1)) as [old|] eqn:Hold; [|done].
  by apply (Hturns old).
Qed.

(** X12.  Throughout a session the stored text and the stored file name
    are bound together, the history is bound whenever they are, the stored
    text is never the empty string, and the history holds turns only when a
    document is stored. *)
Theorem reachable_session_invariant (w : world) :
  reachable PdfReader generate_content w →
  (is_Some (document_text (session w)) ↔ is_Some (last_file (session w)))
  ∧ (is_Some (document_text (session w)) → is_Some (chat_history (session w)))
  ∧ document_text (session w) ≠ Some ""
  ∧ (∀ turns, chat_history (session w) = Some turns → turns ≠ [] →
       is_Some (document_text (session w))).
Proof.
  induction 1 as [|ui w _ IH].
  - repeat split; simpl; try done; by intros [? [=]].
  - by apply main_session_invariant.
Qed.

(** *** The cache of handles throughout a session *)

Lemma same_cache_view_invariant (w w' : world) :
  same cache_view w w' → preserved cache_invariant w w'.
Proof.
  unfold same, cache_view, preserved, cache_invariant.
  intros [= Hr Ho Hl]. by rewrite Hr, Ho, Hl.
Qed.

Lemma keeps_same_cache_view_invariant {A : Type} (m : action A) :
  keeps (same cache_view) m → keeps (preserved cache_invariant) m.
Proof. apply keeps_weaken, same_cache_view_invariant. Qed.

Lemma try_generate_cache_view m messages :
  keeps (same cache_view) (try_generate generate_content m messages).
Proof.
  intros [s r o c l]. unfold same, cache_view. simpl.
  by rewrite configured_snoc.
Qed.

Hint Resolve try_generate_cache_view : keeps.

Lemma retry_loop_cache_view m messages attempts :
  keeps (same cache_view) (retry_loop generate_content m messages attempts).
Proof. induction attempts as [|attempt rest IH]; simpl; keeps_auto. Qed.

Lemma ask_question_cache_view m question document_text turns :
  keeps (same cache_view)
    (ask_question generate_content m question document_text turns).
Proof. apply retry_loop_cache_view. Qed.

Lemma load_model_cache_invariant (key : string) :
  keeps (preserved cache_invariant) (load_model key).
Proof.
  intros w (Hnodup & Hdom & Hhandles & Hinj).
  destruct (resources w !! key) as [h|] eqn:Hkey.
  { by rewrite (load_model_cached _ _ _ Hkey). }
  rewrite (load_model_fresh _ _ Hkey). unfold cache_invariant. simpl.
  assert (Hlog : configured (log w ++ [Configure key])
                 = configured (log w) ++ [key]).
  { unfold configured. by rewrite omap_app. }
  rewrite Hlog. split; [|split; [|split]].
  - apply NoDup_app. split; [exact Hnodup|]. split; [|apply NoDup_singleton].
    intros k Hk Hk'. apply list_elem_of_singleton in Hk'. subst k.
    apply Hdom in Hk. rewrite Hkey in Hk. by destruct Hk.
  - intros k. rewrite elem_of_app, list_elem_of_singleton, Hdom.
    destruct (decide (k = key)) as [->|Hne].
    + rewrite lookup_insert_eq. split; [by eexists | by right].
    + rewrite lookup_insert_ne by done. split; [by intros [?|?] | by left].
  - intros k h. destruct (decide (k = key)) as [->|Hne].
    + rewrite lookup_insert_eq. intros [= <-]. simpl. repeat split; lia.
    + rewrite lookup_insert_ne by done. intros Hk.
      destruct (Hhandles k h Hk) as (Hid & Hname & Hsys). repeat split; [lia|done..].
  - intros k1 k2 h1 h2.
    destruct (decide (k1 = key)) as [->|Hne1], (decide (k2 = key)) as [->|Hne2];
      rewrite ?lookup_insert_eq, ?lookup_insert_ne by done; try done.
    + intros [= <-] Hk2 Hid. simpl in Hid.
      destruct (Hhandles k2 h2 Hk2) as (Hlt & _). lia.
    + intros Hk1 [= <-] Hid. simpl in Hid.
      destruct (Hhandles k1 h1 Hk1) as (Hlt & _). lia.
    + apply Hinj.
Qed.

Hint Resolve ask_question_cache_view load_model_cache_invariant
  keeps_same_cache_view_invariant process_upload_cache_view : keeps.

Lemma main_cache_invariant (ui : widgets) :
  keeps (preserved cache_invariant) (main PdfReader generate_content ui).
Proof.
  unfold main, from_clear_button, answer_question. keeps_auto.
Qed.

Lemma reachable_cache_invariant (w : world) :
  reachable PdfReader generate_content w → cache_invariant w.
Proof.
  induction 1 as [|ui w _ IH].
  - unfold cache_invariant. simpl. split; [constructor|].
    split; [|split]; intros *; rewrite ?lookup_empty; try done.
    split; [by intros ?%elem_of_nil | by intros [? ?]].
  - by apply main_cache_invariant.
Qed.

(** X13.  Throughout a session [genai.configure] is called at most once
    for each credential, and the credentials it was called for are exactly
    those that have a handle in the cache. *)
Theorem reachable_configured_once (w : world) :
  reachable PdfReader generate_content w →
  NoDup (configured (log w))
  ∧ ∀ key, key ∈ configured (log w) ↔ is_Some (resources w !! key).
Proof.
  intros H. destruct (reachable_cache_invariant w H) as (Hnodup & Hdom & _).
  by split.
Qed.


End Script_and_model.

(** X15.  A handle that is found in the cache is returned without calling
    [genai.configure]: when a first credential, then a second one, then the
    first one again are given to [load_model], none of them cached before,
    the third call returns the handle of the first, which is not that of the
    second, while the credential configured last is the second. *)
Theorem load_model_switching_back (first second : string) (w : world) :
  first ≠ second →
  resources w !! first = None →
  resources w !! second = None →
  let r1 := run (load_model first) w in
  let r2 := run (load_model second) r1.2 in
  let r3 := run (load_model first) r2.2 in
  r3.1 = r1.1
  ∧ handle_id r2.1 ≠ handle_id r1.1
  ∧ r3.2 = r2.2
  ∧ log r3.2 = log w ++ [Configure first; Configure second]
  ∧ last (configured (log r3.2)) = Some second.
Proof.
  intros Hne H1 H2 r1 r2 r3. unfold r3, r2, r1, run.
  rewrite (load_model_fresh first w H1). cbn [fst snd].
  set (h1 := {| handle_id := objects w; model_name := MODEL_NAME;
                system_instruction := SYSTEM_PROMPT |}).
  set (w1 := {| session := session w; resources := <[first:=h1]> (resources w);
                objects := S (objects w); calls := calls w;
                log := log w ++ [Configure first] |}).
  assert (H2' : resources w1 !! second = None).
  { unfold w1. cbn [resources]. by rewrite lookup_insert_ne. }
  rewrite (load_model_fresh second w1 H2'). cbn [fst snd].
  set (h2 := {| handle_id := objects w1; model_name := MODEL_NAME;
                system_instruction := SYSTEM_PROMPT |}).
  set (w2 := {| session := session w1; resources := <[second:=h2]> (resources w1);
                objects := S (objects w1); calls := calls w1;
                log := log w1 ++ [Configure second] |}).
  assert (H1' : resources w2 !! first = Some h1).
  { unfold w2, w1. cbn [resources].
    rewrite lookup_insert_ne by done. apply lookup_insert_eq. }
  rewrite (load_model_cached first h1 w2 H1'). cbn [fst snd].
  split; [done|]. split; [simpl; lia|]. split; [done|].
  unfold w2, w1. cbn [log]. split; [by rewrite <- app_assoc|].
  unfold configured. rewrite !omap_app. simpl. apply last_snoc.
Qed.

(** ** What a run sends to the model *)

Lemma sends_compose (sent1 sent2 : list (model_handle * list message))
    (w1 w2 w3 : world) :
  sends sent1 w1 w2 → sends sent2 w2 w3 → sends (sent1 ++ sent2) w1 w3.
Proof.
  intros (n1 & H1 & R1) (n2 & H2 & R2). exists (n1 ++ n2).
  rewrite H2, H1, <- app_assoc. split; [done|].
  unfold requests in *. by rewrite omap_app, R1, R2.
Qed.

Global Instance sends_nothing_preorder : PreOrder (sends []).
Proof.
  split.
  - intros w. exists []. by rewrite app_nil_r.
  - intros w1 w2 w3 H1 H2. apply (sends_compose [] [] w1 w2 w3 H1 H2).
Qed.

Lemma same_log_sends_nothing (w w' : world) : same log w w' → sends [] w w'.
Proof. intros H. exists []. by rewrite app_nil_r. Qed.

Lemma emit_sends_nothing (e : event) :
  request e = None → keeps (sends []) (emit e).
Proof. intros H w. exists [e]. simpl. by rewrite H. Qed.

Lemma modify_session_sends_nothing (f : session_state → session_state) :
  keeps (sends []) (modify_session f).
Proof.
  apply (keeps_weaken (same log)); [apply same_log_sends_nothing|].
  auto with keeps.
Qed.

#[export] Hint Resolve sends_nothing_preorder emit_sends_nothing
  modify_session_sends_nothing : keeps.

Lemma display_history_sends_nothing (turns : list turn) :
  keeps (sends []) (display_history turns).
Proof. induction turns as [|[q a] turns IH]; simpl; keeps_auto. Qed.

Lemma load_model_sends_nothing (key : string) : keeps (sends []) (load_model key).
Proof.
  intros w. destruct (resources w !! key) as [h|] eqn:H.
  - rewrite (load_model_cached _ _ _ H). reflexivity.
  - rewrite (load_model_fresh _ _ H). by exists [Configure key].
Qed.

#[export] Hint Resolve display_history_sends_nothing load_model_sends_nothing
  : keeps.

Section Requests_of_a_run.

Variable PdfReader : uploaded_file → except (list page).
Variable generate_content : nat → model_handle → list message → except string.

Lemma process_upload_sends_nothing (upload : option uploaded_file) :
  keeps (sends []) (process_upload PdfReader upload).
Proof. unfold process_upload, extract_text_from_pdf. keeps_auto. Qed.

(** The [if user_question:] block sends the requests of [ask_question] and
    no other. *)
Lemma answer_question_sends (key question text : string) (w : world) :
  ∃ k,
    1 ≤ k ≤ MAX_RETRIES
    ∧ sends (replicate k ((load_model key w).1,
                          build_messages (build_prompt text question)
                            (default [] (chat_history (session w)))))
        w (answer_question generate_content key question text w).2.
Proof.
  unfold answer_question. rewrite bind_run.
  set (w1 := (emit (ChatMessage "user" question) w).2).
  assert (H1 : sends [] w w1) by (by apply emit_sends_nothing).
  rewrite bind_run.
  set (w2 := (load_model key w1).2).
  assert (H2 : sends [] w1 w2) by apply load_model_sends_nothing.
  rewrite (load_model_handle key w1 w) by by destruct w.
  assert (Hs2 : session w2 = session w).
  { unfold w2. rewrite (keeps_same_eq session) by apply load_model_session.
    by destruct w. }
  rewrite bind_run. cbn [get_session fst snd]. rewrite Hs2.
  rewrite bind_run.
  set (m := (load_model key w).1).
  set (messages := build_messages (build_prompt text question)
                     (default [] (chat_history (session w)))).
  destruct (retry_loop_requests generate_content m messages
              (range 1 (MAX_RETRIES + 1)) w2)
    as (k & new & Hk & Hpos & _ & Hlog & Hreq).
  fold (ask_question generate_content m question text
          (default [] (chat_history (session w)))) in Hlog.
  set (r := ask_question generate_content m question text
              (default [] (chat_history (session w))) w2) in *.
  assert (H3 : sends (replicate k (m, messages)) w2 r.2) by (by exists new).
  exists k. split; [split; [by apply Hpos | exact Hk]|].
  assert (H4 : sends [] r.2
                 (match r.1 with
                  | Some answer =>
                      bind (emit (ChatMessage "assistant" answer))
                        (λ _, modify_session (append_turn (question, answer)))
                  | None => ret ()
                  end r.2).2).
  { destruct r.1 as [answer|]; [|reflexivity].
    apply (keeps_bind (R := sends [])); [|intros ?]; auto with keeps. }
  pose proof (sends_compose _ _ _ _ _ H1 H2) as H12.
  pose proof (sends_compose _ _ _ _ _ H12 H3) as H123.
  pose proof (sends_compose _ _ _ _ _ H123 H4) as Hall.
  simpl in Hall. by rewrite app_nil_r in Hall.
Qed.

(** The chat area, once the guards are passed: the world in which the
    question is looked at. *)
Lemma from_clear_button_chat (ui : widgets) (w : world) (text : string) :
  clear_clicked ui = false →
  truthy (api_key ui) = true →
  document_text (session w) = Some text →
  (from_clear_button generate_content ui w).2
  = (match user_question ui with
     | Some question =>
         if truthy question
         then answer_question generate_content (api_key ui) question text
         else ret ()
     | None => ret ()
     end
       (display_history (default [] (chat_history (session w)))
          {| session := set_chat_history (default [] (chat_history (session w)))
                          (session w);
             resources := resources w; objects := objects w; calls := calls w;
             log := log w ++ [StInfo how_rag_works] |}).2).2.
Proof.
  intros Hclear Hkey Hdoc. unfold from_clear_button. rewrite Hclear, Hkey.
  destruct w as [[d f h] r o c l]. simpl in Hdoc. subst d.
  destruct h as [turns|]; simpl; repeat (rewrite bind_run; simpl); done.
Qed.

Lemma from_clear_button_sends (ui : widgets) (w : world) :
  sends [] w (from_clear_button generate_content ui w).2
  ∨ ∃ k question text,
      1 ≤ k ≤ MAX_RETRIES
      ∧ user_question ui = Some question
      ∧ document_text (session w) = Some text
      ∧ sends (replicate k
                 ((load_model (api_key ui) w).1,
                  build_messages (build_prompt text question)
                    (default [] (chat_history (session w)))))
          w (from_clear_button generate_content ui w).2.
Proof.
  destruct (clear_clicked ui) eqn:Hclear.
  { left. unfold from_clear_button. rewrite Hclear.
    assert (Hk : keeps (sends [])
                   (bind (modify_session (set_chat_history []))
                      (λ _, emit Rerun))) by keeps_auto.
    apply Hk. }
  destruct (document_text (session w)) as [text|] eqn:Hdoc; cycle 1.
  { left. unfold from_clear_button. rewrite Hclear.
    destruct w as [[d f h] r o c l]. simpl in Hdoc. subst d.
    destruct h as [turns|]; simpl; repeat (rewrite bind_run; simpl);
      eexists; (split; [rewrite <- app_assoc; reflexivity | reflexivity]). }
  destruct (truthy (api_key ui)) eqn:Hkey; cycle 1.
  { left. unfold from_clear_button. rewrite Hclear, Hkey.
    destruct w as [[d f h] r o c l]. simpl in Hdoc. subst d.
    destruct h as [turns|]; simpl; repeat (rewrite bind_run; simpl);
      eexists; (split; [rewrite <- app_assoc; reflexivity | reflexivity]). }
  rewrite (from_clear_button_chat ui w text Hclear Hkey Hdoc).
  set (w0 := {| session := set_chat_history (default [] (chat_history (session w)))
                             (session w);
                resources := resources w; objects := objects w;
                calls := calls w; log := log w ++ [StInfo how_rag_works] |}).
  set (w1 := (display_history (default [] (chat_history (session w))) w0).2).
  assert (H0 : sends [] w w0) by (by exists [StInfo how_rag_works]).
  assert (H1 : sends [] w w1).
  { etransitivity; [exact H0|]. apply display_history_sends_nothing. }
  assert (Hs1 : session w1 = session w0).
  { apply (keeps_same_eq session), display_history_same. auto with keeps. }
  assert (Hr1 : resources w1 = resources w).
  { unfold w1. rewrite (keeps_same_eq resources); [done|].
    apply display_history_same. auto with keeps. }
  assert (Ho1 : objects w1 = objects w).
  { unfold w1. rewrite (keeps_same_eq objects); [done|].
    apply display_history_same. auto with keeps. }
  destruct (user_question ui) as [question|] eqn:Hq; [|by left].
  destruct (truthy question) eqn:Htq; [|by left].
  right.
  destruct (answer_question_sends (api_key ui) question text w1)
    as (k & Hk & Hsends).
  exists k, question, text. split; [exact Hk|]. split; [done|]. split; [done|].
  rewrite (load_model_handle (api_key ui) w1 w Hr1 Ho1) in Hsends.
  rewrite Hs1 in Hsends. simpl in Hsends.
  apply (sends_compose [] _ w w1 _ H1 Hsends).
Qed.

(** X16.  Whatever a run sends to the model, it sends on behalf of the
    question submitted in that run: every request of the run carries the
    handle that [load_model] gives for the key typed, and the conversation
    built from that question and from the document and the history as the
    upload block of this very run has left them.  So a run that loads a new
    document and answers a question sends the new text and an empty
    history. *)
Theorem main_requests (ui : widgets) (w : world) :
  let w1 := (run (process_upload PdfReader (uploaded ui)) w).2 in
  ∃ new,
    log (run (main PdfReader generate_content ui) w).2 = log w ++ new
    ∧ (requests new = []
       ∨ ∃ k question text,
           1 ≤ k ≤ MAX_RETRIES
           ∧ user_question ui = Some question
           ∧ document_text (session w1) = Some text
           ∧ requests new
             = replicate k
                 ((run (load_model (api_key ui)) w1).1,
                  build_messages (build_prompt text question)
                    (default [] (chat_history (session w1))))).
Proof.
  intros w1. unfold run in *. unfold main. rewrite bind_run. fold w1.
  assert (Hup : sends [] w w1) by apply process_upload_sends_nothing.
  destruct (from_clear_button_sends ui w1)
    as [Hs|(k & question & text & Hk & Hq & Hdoc & Hs)].
  - destruct (sends_compose [] [] w w1 _ Hup Hs) as (new & Hlog & Hreq).
    exists new. split; [exact Hlog | by left].
  - destruct (sends_compose [] _ w w1 _ Hup Hs) as (new & Hlog & Hreq).
    exists new. split; [exact Hlog|]. right.
    exists k, question, text. done.
Qed.

(** X17.  A file that yields no text, be it a scan or a file that cannot be
    read, is not remembered: the session state stays as it was, so the file
    still counts as new, and as long as it is in the uploader every run
    reads it again and displays the same errors again. *)
Theorem rejected_file_is_read_again (file : uploaded_file) (w : world) :
  is_new_file (session w) file = true →
  (run (extract_text_from_pdf PdfReader file) w).1 = "" →
  let w1 := (run (process_upload PdfReader (Some file)) w).2 in
  let w2 := (run (process_upload PdfReader (Some file)) w1).2 in
  session w1 = session w
  ∧ is_new_file (session w1) file = true
  ∧ ∃ shown,
      log w1 = log w ++ ReadPdf file :: shown
      ∧ log w2 = log w1 ++ ReadPdf file :: shown
      ∧ last shown = Some (StError "Could not extract text. Is this a scanned PDF?").
Proof.
  intros Hnew Hempty w1 w2. unfold run in *.
  assert (Hex : ∃ shown, ∀ w0,
    extract_text_from_pdf PdfReader file w0
    = ("", {| session := session w0; resources := resources w0;
              objects := objects w0; calls := calls w0;
              log := log w0 ++ ReadPdf file :: shown |})).
  { destruct (read_pages PdfReader file) as [text|e] eqn:Hread.
    - exists []. intros w0.
      rewrite (extract_text_from_pdf_value PdfReader file text w0 Hread).
      rewrite (extract_text_from_pdf_value PdfReader file text w Hread) in Hempty.
      simpl in Hempty. by subst text.
    - exists [StError ("❌ Failed to read PDF: " +:+ e)]. intros w0.
      rewrite (extract_text_from_pdf_raises PdfReader file e w0 Hread).
      by rewrite <- app_assoc. }
  destruct Hex as (shown & Hex).
  assert (Hrun : ∀ w0, is_new_file (session w0) file = true →
    process_upload PdfReader (Some file) w0
    = (tt, {| session := session w0; resources := resources w0;
              objects := objects w0; calls := calls w0;
              log := log w0 ++ ReadPdf file
                       :: (shown ++ [StError
                            "Could not extract text. Is this a scanned PDF?"]) |})).
  { intros w0 H0. rewrite process_upload_rejects; [|exact H0|by rewrite Hex].
    rewrite Hex. simpl. by rewrite <- app_assoc. }
  assert (Hs1 : session w1 = session w) by (unfold w1; by rewrite Hrun).
  split; [exact Hs1|]. split; [by rewrite Hs1|].
  exists (shown ++ [StError "Could not extract text. Is this a scanned PDF?"]).
  split; [unfold w1; by rewrite Hrun|].
  split; [unfold w2; rewrite Hrun; [done | by rewrite Hs1]|].
  apply last_snoc.
Qed.

End Requests_of_a_run.

(** ** What is shown and what is kept *)

Section Shown_and_kept.

Variable PdfReader : uploaded_file → except (list page).
Variable generate_content : nat → model_handle → list message → except string.

Lemma answer_question_shows (key question text : string) (w : world) :
  ∃ answer,
    session (answer_question generate_content key question text w).2
    = append_turn (question, answer) (session w)
    ∧ last (log (answer_question generate_content key question text w).2)
      = Some (ChatMessage "assistant" answer).
Proof.
  unfold answer_question. rewrite bind_run.
  set (w1 := (emit (ChatMessage "user" question) w).2).
  rewrite bind_run.
  set (w2 := (load_model key w1).2).
  assert (Hs2 : session w2 = session w).
  { unfold w2. rewrite (keeps_same_eq session) by apply load_model_session.
    by destruct w. }
  rewrite bind_run. cbn [get_session fst snd]. rewrite Hs2.
  rewrite bind_run.
  set (m := (load_model key w1).1).
  set (r := ask_question generate_content m question text
              (default [] (chat_history (session w))) w2).
  destruct (ask_question_returns generate_content m question text
              (default [] (chat_history (session w))) w2) as [answer Ha].
  fold r in Ha.
  assert (Hsr : session r.2 = session w).
  { unfold r. rewrite (keeps_same_eq session) by apply ask_question_session.
    exact Hs2. }
  exists answer. rewrite Ha.
  rewrite bind_run. unfold modify_session. rewrite bind_run.
  destruct r.2 as [s r' o c l]. simpl in *. subst s.
  split; [done | apply last_snoc].
Qed.

(** X18.  In a run that answers a question (the clear button is not
    clicked, a key is typed, a question that is not empty is submitted and a
    document is stored once the upload block is done), the answer displayed
    last as the assistant's message is the very string that is kept, with the
    question, as the new last turn of the history. *)
Theorem answer_shown_is_answer_kept (ui : widgets) (w : world)
    (question text : string) :
  let w1 := (run (process_upload PdfReader (uploaded ui)) w).2 in
  let w' := (run (main PdfReader generate_content ui) w).2 in
  clear_clicked ui = false →
  truthy (api_key ui) = true →
  user_question ui = Some question →
  question ≠ "" →
  document_text (session w1) = Some text →
  ∃ answer,
    chat_history (session w')
    = Some (default [] (chat_history (session w1)) ++ [(question, answer)])
    ∧ last (log w') = Some (ChatMessage "assistant" answer).
Proof.
  intros w1 w' Hclear Hkey Hq Htq Hdoc. apply truthy_true in Htq.
  unfold w', run, main. rewrite bind_run. fold (run (process_upload PdfReader (uploaded ui)) w).
  fold w1.
  rewrite (from_clear_button_chat generate_content ui w1 text Hclear Hkey Hdoc).
  rewrite Hq, Htq.
  set (w2 := (display_history (default [] (chat_history (session w1)))
                {| session := set_chat_history
                                (default [] (chat_history (session w1)))
                                (session w1);
                   resources := resources w1; objects := objects w1;
                   calls := calls w1;
                   log := log w1 ++ [StInfo how_rag_works] |}).2).
  assert (Hs2 : session w2
                = set_chat_history (default [] (chat_history (session w1)))
                    (session w1)).
  { unfold w2. rewrite (keeps_same_eq session); [done|].
    apply display_history_same. auto with keeps. }
  destruct (answer_question_shows (api_key ui) question text w2)
    as (answer & Hs & Hl).
  exists answer. split; [|exact Hl].
  by rewrite Hs, Hs2.
Qed.

End Shown_and_kept.

(** ** The further properties at the sample inputs *)

Lemma ask_question_recovers_witness :
  run (ask_question Sample_services.recovering Sample.handle "Why?" "alpha" [])
    initial_world
  = (Some "It is on page 1.",
     {| session := initial_session; resources := ∅; objects := 0;
        calls := 0 + 2 + 1;
        log := [] ++ (seq 1 2 ≫= rate_limited_attempt Sample.handle
                        (build_messages (build_prompt "alpha" "Why?") []))
                 ++ [GenerateContent Sample.handle
                       (build_messages (build_prompt "alpha" "Why?") [])] |}).
Proof.
  apply (ask_question_recovers Sample_services.recovering Sample.handle
           "Why?" "alpha" [] initial_world 2 "It is on page 1.").
  - unfold MAX_RETRIES. lia.
  - intros i Hi. exists "429 Too Many Requests". split; [|reflexivity].
    destruct i as [|[|i]]; [reflexivity | reflexivity | lia].
  - reflexivity.
Defined.

Lemma ask_question_gives_up_witness :
  run (ask_question Sample_services.worsening Sample.handle "Why?" "alpha" [])
    initial_world
  = (Some ("❌ Unexpected error: " +:+ "500 Internal error"),
     {| session := initial_session; resources := ∅; objects := 0;
        calls := 0 + 1 + 1;
        log := [] ++ (seq 1 1 ≫= rate_limited_attempt Sample.handle
                        (build_messages (build_prompt "alpha" "Why?") []))
                 ++ [GenerateContent Sample.handle
                       (build_messages (build_prompt "alpha" "Why?") [])] |}).
Proof.
  apply (ask_question_gives_up Sample_services.worsening Sample.handle
           "Why?" "alpha" [] initial_world 1 "500 Internal error").
  - unfold MAX_RETRIES. lia.
  - intros i Hi. exists "Quota exceeded for this key". split; [|reflexivity].
    destruct i as [|i]; [reflexivity | lia].
  - reflexivity.
  - reflexivity.
Defined.

Lemma clear_button_empties_history_witness :
  chat_history (session Sample.one_turn)
  = Some [("Why?", "❌ Unexpected error: 503 Service Unavailable")]
  ∧ run (main Sample.reader Sample.down Sample_runs.clear_and_ask) Sample.one_turn
    = (tt,
       {| session :=
            {| document_text :=
                 document_text
                   (session (run (process_upload Sample.reader
                                    (uploaded Sample_runs.clear_and_ask))
                               Sample.one_turn).2);
               last_file :=
                 last_file
                   (session (run (process_upload Sample.reader
                                    (uploaded Sample_runs.clear_and_ask))
                               Sample.one_turn).2);
               chat_history := Some [] |};
          resources := resources Sample.one_turn;
          objects := objects Sample.one_turn;
          calls := calls Sample.one_turn;
          log := log (run (process_upload Sample.reader
                             (uploaded Sample_runs.clear_and_ask))
                        Sample.one_turn).2 ++ [Rerun] |}).
Proof.
  split; [reflexivity|].
  apply (clear_button_empties_history Sample.reader Sample.down
           Sample_runs.clear_and_ask Sample.one_turn).
  reflexivity.
Defined.

Lemma model_is_left_alone_witness :
  calls (run (main Sample.reader Sample.down Sample_runs.ask_without_key)
           Sample.notes_loaded).2 = calls Sample.notes_loaded
  ∧ resources (run (main Sample.reader Sample.down Sample_runs.ask_without_key)
                 Sample.notes_loaded).2 = resources Sample.notes_loaded
  ∧ objects (run (main Sample.reader Sample.down Sample_runs.ask_without_key)
               Sample.notes_loaded).2 = objects Sample.notes_loaded
  ∧ configured (log (run (main Sample.reader Sample.down
                            Sample_runs.ask_without_key)
                       Sample.notes_loaded).2)
    = configured (log Sample.notes_loaded).
Proof.
  apply (model_is_left_alone Sample.reader Sample.down
           Sample_runs.ask_without_key Sample.notes_loaded).
  right. right. left. reflexivity.
Defined.

Lemma reachable_one_turn : reachable Sample.reader Sample.down Sample.one_turn.
Proof.
  unfold Sample.one_turn, Sample.notes_loaded.
  apply reachable_run, reachable_run, reachable_initial.
Defined.

Lemma reachable_session_invariant_witness :
  (is_Some (document_text (session Sample.one_turn))
   ↔ is_Some (last_file (session Sample.one_turn)))
  ∧ (is_Some (document_text (session Sample.one_turn))
     → is_Some (chat_history (session Sample.one_turn)))
  ∧ document_text (session Sample.one_turn) ≠ Some ""
  ∧ (∀ turns, chat_history (session Sample.one_turn) = Some turns → turns ≠ [] →
       is_Some (document_text (session Sample.one_turn))).
Proof.
  apply (reachable_session_invariant Sample.reader Sample.down Sample.one_turn).
  exact reachable_one_turn.
Defined.

Lemma reachable_configured_once_witness :
  configured (log Sample.one_turn) = ["key"]
  ∧ NoDup (configured (log Sample.one_turn))
  ∧ ∀ key, key ∈ configured (log Sample.one_turn)
           ↔ is_Some (resources Sample.one_turn !! key).
Proof.
  split; [reflexivity|].
  apply (reachable_configured_once Sample.reader Sample.down Sample.one_turn).
  exact reachable_one_turn.
Defined.


Lemma load_model_switching_back_witness :
  (run (load_model "first")
     (run (load_model "second") (run (load_model "first") initial_world).2).2).1
  = (run (load_model "first") initial_world).1
  ∧ handle_id (run (load_model "second")
                 (run (load_model "first") initial_world).2).1
    ≠ handle_id (run (load_model "first") initial_world).1
  ∧ (run (load_model "first")
       (run (load_model "second") (run (load_model "first") initial_world).2).2).2
    = (run (load_model "second") (run (load_model "first") initial_world).2).2
  ∧ log (run (load_model "first")
           (run (load_model "second")
              (run (load_model "first") initial_world).2).2).2
    = log initial_world ++ [Configure "first"; Configure "second"]
  ∧ last (configured
            (log (run (load_model "first")
                    (run (load_model "second")
                       (run (load_model "first") initial_world).2).2).2))
    = Some "second".
Proof.
  apply (load_model_switching_back "first" "second" initial_world).
  - discriminate.
  - reflexivity.
  - reflexivity.
Defined.

Lemma rejected_file_is_read_again_witness :
  session (run (process_upload Sample_files.reader (Some Sample_files.scan))
             initial_world).2
  = session initial_world
  ∧ is_new_file
      (session (run (process_upload Sample_files.reader (Some Sample_files.scan))
                  initial_world).2)
      Sample_files.scan = true
  ∧ ∃ shown,
      log (run (process_upload Sample_files.reader (Some Sample_files.scan))
             initial_world).2
      = log initial_world ++ ReadPdf Sample_files.scan :: shown
      ∧ log (run (process_upload Sample_files.reader (Some Sample_files.scan))
               (run (process_upload Sample_files.reader (Some Sample_files.scan))
                  initial_world).2).2
        = log (run (process_upload Sample_files.reader (Some Sample_files.scan))
                 initial_world).2
          ++ ReadPdf Sample_files.scan :: shown
      ∧ last shown
        = Some (StError "Could not extract text. Is this a scanned PDF?").
Proof.
  apply (rejected_file_is_read_again Sample_files.reader Sample_files.scan
           initial_world); reflexivity.
Defined.

Lemma answer_shown_is_answer_kept_witness :
  ∃ answer,
    chat_history
      (session (run (main Sample.reader Sample.down Sample.ask_why)
                  Sample.notes_loaded).2)
    = Some (default []
              (chat_history
                 (session (run (process_upload Sample.reader
                                  (uploaded Sample.ask_why))
                             Sample.notes_loaded).2))
              ++ [("Why?", answer)])
    ∧ last (log (run (main Sample.reader Sample.down Sample.ask_why)
                   Sample.notes_loaded).2)
      = Some (ChatMessage "assistant" answer).
Proof.
  apply (answer_shown_is_answer_kept Sample.reader Sample.down Sample.ask_why
           Sample.notes_loaded "Why?"
           (nl +:+ "--- Page 1 ---" +:+ nl +:+ "alpha" +:+
            nl +:+ "--- Page 4 ---" +:+ nl +:+ "beta"));
    [reflexivity | reflexivity | reflexivity | discriminate | reflexivity].
Defined.
